(** * MedCare Hospital Management (recomand.py): a shallow embedding

    The program is a Streamlit script over a SQLite file.  Streamlit runs the
    whole script once per user interaction; a widget call returns the value
    the user gave it for that run.  One run of the script is modelled as a
    computation over the session state, the database and the rendered output,
    parameterised by the widget values of the run. *)

From Stdlib Require Import List ZArith NArith Bool String Ascii Lia.
Import ListNotations.

Set Implicit Arguments.

(** ** Text: Python [str] values as sequences of code points *)

Module Text.

Definition char := N.
Definition str := list char.

(** Code points of an ASCII literal of the source. *)
Definition u (s : string) : str := map N_of_ascii (list_ascii_of_string s).

Fixpoint eqb (a b : str) : bool :=
  match a, b with
  | [], [] => true
  | x :: a', y :: b' => N.eqb x y && eqb a' b'
  | _, _ => false
  end.

(** Python truthiness of a [str]: every non-empty string is true. *)
Definition truthy (s : str) : bool :=
  match s with [] => false | _ :: _ => true end.

(** [str.isspace] on one code point (the Unicode white space table). *)
Definition is_space (c : char) : bool :=
  ((9 <=? c) && (c <=? 13) || (28 <=? c) && (c <=? 32)
   || (c =? 133) || (c =? 160) || (c =? 5760)
   || (8192 <=? c) && (c <=? 8202)
   || (c =? 8232) || (c =? 8233) || (c =? 8239) || (c =? 8287)
   || (c =? 12288))%N.

Fixpoint lstrip (s : str) : str :=
  match s with
  | c :: s' => if is_space c then lstrip s' else s
  | [] => []
  end.

Definition rstrip (s : str) : str := rev (lstrip (rev s)).

(** [s.strip()] *)
Definition strip (s : str) : str := rstrip (lstrip s).

(** [a in b] on strings: [a] occurs in [b] as a contiguous run. *)
Fixpoint starts_with (a b : str) : bool :=
  match a, b with
  | [], _ => true
  | x :: a', y :: b' => N.eqb x y && starts_with a' b'
  | _ :: _, [] => false
  end.

Fixpoint contains (a b : str) : bool :=
  starts_with a b ||
  match b with
  | [] => false
  | _ :: b' => contains a b'
  end.

(** Lexicographic order on code points (SQLite's BINARY collation). *)
Fixpoint leb (a b : str) : bool :=
  match a, b with
  | [], _ => true
  | _ :: _, [] => false
  | x :: a', y :: b' => (x <? y)%N || (N.eqb x y && leb a' b')
  end.

(** *** SQLite's LIKE operator

    [%] matches any run of characters, [_] matches exactly one character,
    every other character matches itself; upper-case ASCII letters are
    folded to lower case on both sides, nothing else is. *)

Definition percent : char := 37%N.
Definition underscore : char := 95%N.

Definition fold (c : char) : char :=
  if ((65 <=? c) && (c <=? 90))%N then (c + 32)%N else c.

(** [star f t]: [f] accepts some suffix of [t] (what [%] does before the
    rest of the pattern). *)
Section Star.
Variable f : str -> bool.

Fixpoint star (t : str) : bool :=
  f t ||
  match t with
  | [] => false
  | _ :: t' => star t'
  end.
End Star.

Fixpoint like (p t : str) : bool :=
  match p with
  | [] => match t with [] => true | _ :: _ => false end
  | c :: p' =>
      if N.eqb c percent then star (like p') t
      else if N.eqb c underscore then
        match t with
        | [] => false
        | _ :: t' => like p' t'
        end
      else
        match t with
        | [] => false
        | d :: t' => N.eqb (fold c) (fold d) && like p' t'
        end
  end.



End Text.

Import Text.

(** ** The database file [hospital.db]

    The three tables of [init_db].  A column declared [NOT NULL] holds a
    string, any other text column holds a string or [NULL] ([None]).
    SQLite is modelled as far as the schema constrains it: the integer
    primary key with AUTOINCREMENT (row ids are integers without a bound),
    UNIQUE on the patient phone, and CURRENT_TIMESTAMP for [created_at]. *)

Module Patient.
Record t := mk {
  id : Z;
  first_name : str;
  last_name : str;
  phone : option str;
  gender : option str;
  dob : option str;
  blood_type : option str;
  created_at : option str
}.
End Patient.

Module Doctor.
Record t := mk {
  id : Z;
  name : str;
  specialty : str;
  phone : option str;
  department : option str
}.
End Doctor.

Module Staff.
Record t := mk {
  id : Z;
  name : str;
  role : str;
  phone : option str;
  department : option str;
  status : option str
}.
End Staff.

(** [patients_seq] is the [sqlite_sequence] counter that AUTOINCREMENT keeps
    for the patients table; the script never inserts into the other two. *)
Record db := mkDb {
  patients : list Patient.t;
  patients_seq : Z;
  doctors : list Doctor.t;
  staff : list Staff.t
}.

Inductive table := TPatients | TDoctors | TStaff.

Definition table_name (t : table) : str :=
  match t with
  | TPatients => u "patients"
  | TDoctors => u "doctors"
  | TStaff => u "staff"
  end.

(** The SQL statements of the script, with their bound parameters. *)
Inductive stmt :=
| SelectCount (t : table)
    (* SELECT COUNT( * ) cnt FROM t *)
| SelectPatients
    (* SELECT * FROM patients *)
| SelectPatientsLike (a b c : str)
    (* ... WHERE first_name LIKE ? OR last_name LIKE ? OR phone LIKE ? *)
| InsertPatient (fn ln ph g blood : str)
    (* INSERT INTO patients (first_name, last_name, phone, gender, blood_type) *)
| SelectLabels
    (* SELECT id, first_name || ' ' || last_name || ' (' || phone || ')' label *)
| SelectPatientById (pid : Z)
    (* SELECT * FROM patients WHERE id = ? *)
| UpdatePatient (fn ln : str) (ph : option str) (g blood : str) (pid : Z)
    (* UPDATE patients SET ... WHERE id=? *)
| DeletePatient (pid : Z)
    (* DELETE FROM patients WHERE id = ? *)
| SelectOrdered (t : table).
    (* SELECT * FROM t ORDER BY name, for doctors and staff *)

(** What pandas reads back from a query. *)
Inductive frame :=
| FCount (cnt : Z)
| FPatients (rows : list Patient.t)
| FLabels (rows : list (Z * option str))
| FDoctors (rows : list Doctor.t)
| FStaff (rows : list Staff.t).

Definition frame_empty (f : frame) : bool :=
  match f with
  | FCount _ => false
  | FPatients [] | FLabels [] | FDoctors [] | FStaff [] => true
  | _ => false
  end.

Inductive sql_error :=
| UniqueFailed       (* UNIQUE constraint failed: patients.phone *)
| NoSuchColumn       (* ORDER BY name on a table without that column *)
| NoResultSet.       (* a frame was asked of a statement that returns no rows *)

Definition error_text (e : sql_error) : str :=
  match e with
  | UniqueFailed => u "UNIQUE constraint failed: patients.phone"
  | NoSuchColumn => u "no such column: name"
  | NoResultSet => u "'NoneType' object is not iterable"
  end.

Module Sql.

Definition opt_eqb (a b : option str) : bool :=
  match a, b with
  | Some x, Some y => Text.eqb x y
  | _, _ => false
  end.

(** [x LIKE pat] on a nullable column: NULL matches nothing. *)
Definition like_col (x : option str) (pat : str) : bool :=
  match x with
  | Some t => like pat t
  | None => false
  end.

(** [a || b] of SQL on a nullable right operand. *)
Definition concat_opt (a : str) (b : option str) (k : str -> str) : option str :=
  match b with
  | Some s => Some (a ++ k s)
  | None => None
  end.

Definition label (p : Patient.t) : option str :=
  concat_opt (Patient.first_name p ++ u " " ++ Patient.last_name p ++ u " (")
             (Patient.phone p) (fun ph => ph ++ u ")").

Definition has_id (pid : Z) (p : Patient.t) : bool := Z.eqb (Patient.id p) pid.

(** The UNIQUE constraint on [phone]: some row other than [skip] already
    holds the phone [ph].  NULL phones never collide. *)
Definition phone_taken (ph : option str) (skip : option Z) (rows : list Patient.t) : bool :=
  existsb (fun r =>
             opt_eqb (Patient.phone r) ph &&
             match skip with
             | Some pid => negb (has_id pid r)
             | None => true
             end) rows.

Definition max_id (rows : list Patient.t) : Z :=
  fold_right (fun r m => Z.max (Patient.id r) m) 0%Z rows.

(** The rowid AUTOINCREMENT hands out: one more than the largest rowid the
    table has ever held. *)
Definition next_id (d : db) : Z := (Z.max (max_id (patients d)) (patients_seq d) + 1)%Z.

Definition set_patients (rows : list Patient.t) (seq : Z) (d : db) : db :=
  mkDb rows seq (doctors d) (staff d).

Definition apply_update (fn ln : str) (ph : option str) (g blood : str)
    (pid : Z) (r : Patient.t) : Patient.t :=
  if has_id pid r
  then Patient.mk (Patient.id r) fn ln ph (Some g) (Patient.dob r) (Some blood)
                  (Patient.created_at r)
  else r.

Section Sorting.
Variables (A : Type) (key : A -> str).

Fixpoint insert_by (x : A) (l : list A) : list A :=
  match l with
  | [] => [x]
  | y :: l' => if Text.leb (key x) (key y) then x :: l else y :: insert_by x l'
  end.

Definition order_by (l : list A) : list A := fold_right insert_by [] l.
End Sorting.

(** One statement against the database at time [now]: an error, or the
    frame of rows it returns (if it returns rows) and the new database. *)
Definition exec (q : stmt) (now : str) (d : db) : sql_error + (option frame * db) :=
  match q with
  | SelectCount TPatients => inr (Some (FCount (Z.of_nat (List.length (patients d)))), d)
  | SelectCount TDoctors => inr (Some (FCount (Z.of_nat (List.length (doctors d)))), d)
  | SelectCount TStaff => inr (Some (FCount (Z.of_nat (List.length (staff d)))), d)
  | SelectPatients => inr (Some (FPatients (patients d)), d)
  | SelectPatientsLike a b c =>
      inr (Some (FPatients
                   (filter (fun r =>
                              like a (Patient.first_name r)
                              || like b (Patient.last_name r)
                              || like_col (Patient.phone r) c)
                           (patients d))), d)
  | InsertPatient fn ln ph g blood =>
      if phone_taken (Some ph) None (patients d) then inl UniqueFailed
      else
        let i := next_id d in
        inr (None,
             set_patients
               (patients d ++
                [Patient.mk i fn ln (Some ph) (Some g) None (Some blood) (Some now)])
               i d)
  | SelectLabels =>
      inr (Some (FLabels (map (fun r => (Patient.id r, label r)) (patients d))), d)
  | SelectPatientById pid =>
      inr (Some (FPatients (filter (has_id pid) (patients d))), d)
  | UpdatePatient fn ln ph g blood pid =>
      if existsb (has_id pid) (patients d) && phone_taken ph (Some pid) (patients d)
      then inl UniqueFailed
      else
        inr (None,
             set_patients (map (apply_update fn ln ph g blood pid) (patients d))
                          (patients_seq d) d)
  | DeletePatient pid =>
      inr (None,
           set_patients (filter (fun r => negb (has_id pid r)) (patients d))
                        (patients_seq d) d)
  | SelectOrdered TPatients => inl NoSuchColumn
  | SelectOrdered TDoctors =>
      inr (Some (FDoctors (order_by Doctor.name (doctors d))), d)
  | SelectOrdered TStaff =>
      inr (Some (FStaff (order_by Staff.name (staff d))), d)
  end.

(** A statement that changes rows. *)
Definition mutating (q : stmt) : bool :=
  match q with
  | InsertPatient _ _ _ _ _ | UpdatePatient _ _ _ _ _ _ | DeletePatient _ => true
  | _ => false
  end.

End Sql.

(** ** One run of the script

    A run threads the session state, the database, the number of open
    connections and the rendered output.  It ends normally, or early by
    [st.rerun()], by [st.stop()], or by a Python exception nobody catches. *)

Inductive exn := AttributeError | TypeError | IndexError | ValueError.

Inductive event :=
| Sql (q : stmt)                  (* a statement handed to SQLite *)
| Title (s : str)
| Subheader (s : str)
| Success (s : str)
| Error (s : str)
| Info (s : str)
| Warning (s : str)
| Metric (label : str) (v : Z)
| Dataframe (f : frame).

Record world := mkWorld {
  logged_in : option bool;        (* st.session_state; the key may be absent *)
  store : db;
  open_conns : nat;
  clock : str;                    (* CURRENT_TIMESTAMP *)
  out : list event                (* oldest first *)
}.

Inductive outcome (A : Type) :=
| Ret (a : A)
| Rerun
| Stop
| Raise (e : exn).

Arguments Rerun {A}.
Arguments Stop {A}.
Arguments Raise {A} e.

Definition Script (A : Type) := world -> outcome A * world.

Definition ret {A} (a : A) : Script A := fun w => (Ret a, w).

Definition bind {A B} (m : Script A) (k : A -> Script B) : Script B :=
  fun w =>
    match m w with
    | (Ret a, w') => k a w'
    | (Rerun, w') => (Rerun, w')
    | (Stop, w') => (Stop, w')
    | (Raise e, w') => (Raise e, w')
    end.

Declare Scope script_scope.
Delimit Scope script_scope with script.
Notation "x <- m ;; k" := (bind m (fun x => k))
  (at level 61, m at next level, right associativity) : script_scope.
Notation "m ;; k" := (bind m (fun _ => k))
  (at level 61, right associativity) : script_scope.
Local Open Scope script_scope.

Definition rerun {A} : Script A := fun w => (Rerun, w).
Definition stop {A} : Script A := fun w => (Stop, w).
Definition raise {A} (e : exn) : Script A := fun w => (Raise e, w).

Definition emit (e : event) : Script unit :=
  fun w => (Ret tt, mkWorld (logged_in w) (store w) (open_conns w) (clock w) (out w ++ [e])).

Definition set_logged_in (b : bool) : Script unit :=
  fun w => (Ret tt, mkWorld (Some b) (store w) (open_conns w) (clock w) (out w)).

Definition get_logged_in : Script bool :=
  fun w =>
    match logged_in w with
    | Some b => (Ret b, w)
    | None => (Raise AttributeError, w)
    end.

Definition set_store (d : db) (w : world) : world :=
  mkWorld (logged_in w) d (open_conns w) (clock w) (out w).

(** [get_db]: a fresh connection; [conn.close()] gives it back. *)
Definition get_db : Script unit :=
  fun w => (Ret tt, mkWorld (logged_in w) (store w) (S (open_conns w)) (clock w) (out w)).

Definition conn_close : Script unit :=
  fun w => (Ret tt, mkWorld (logged_in w) (store w) (pred (open_conns w)) (clock w) (out w)).

(** [init_db]: the tables exist in [db], so CREATE TABLE IF NOT EXISTS
    changes nothing; what remains is the connection it opens and closes. *)
Definition init_db : Script unit :=
  get_db ;; conn_close.

(** [run_query(sql, params, fetch_df, commit)].  The [try] body either
    returns the frame (fetch), or executes and perhaps commits and returns
    [None]; [except Exception] reports and returns [None]; [finally] closes.
    Changes that were not committed are gone with the connection. *)
Definition run_query (q : stmt) (fetch_df commit : bool) : Script (option frame) :=
  get_db ;;
  emit (Sql q) ;;
  r <- (fun w =>
          match Sql.exec q (clock w) (store w) with
          | inl e =>
              bind (emit (Error (u "Database error: " ++ error_text e)))
                   (fun _ => ret None) w
          | inr (fr, d') =>
              if fetch_df then
                match fr with
                | Some f => (Ret (Some f), w)
                | None =>
                    bind (emit (Error (u "Database error: " ++ error_text NoResultSet)))
                         (fun _ => ret None) w
                end
              else (Ret None, if commit then set_store d' w else w)
          end) ;;
  conn_close ;;
  ret r.

(** *** Widgets: the value a widget call returns in this run *)

Record inputs := mkInputs {
  in_page : nat;                  (* sidebar radio "Main Modules" *)
  in_logout : bool;               (* button "Logout" *)
  in_username : str;
  in_password : str;
  in_login : bool;                (* button "Login" *)
  in_search : str;                (* "Search name or phone" *)
  in_mode : nat;                  (* radio "Action" *)
  in_fn : str;
  in_ln : str;
  in_ph : str;
  in_gender : nat;
  in_blood : nat;
  in_create : bool;               (* button "Create Patient" *)
  in_patient : nat;               (* selectbox "Select patient" *)
  in_e_fn : option str;           (* edit fields: [None] = left as shown *)
  in_e_ln : option str;
  in_e_ph : option str;
  in_e_gender : option nat;
  in_e_blood : option nat;
  in_update : bool;               (* button "Update Patient" *)
  in_delete : bool;               (* button "Delete Patient" *)
  in_confirm : bool               (* checkbox "Confirm permanent deletion" *)
}.

(** A radio or select box returns the option the user picked; it starts on
    the option at [index], and a pick past the end stands for that one. *)
Definition selectbox {A} (d : A) (options : list A) (index : nat) (pick : option nat) : A :=
  match pick with
  | Some k => nth k options (nth index options d)
  | None => nth index options d
  end.

Definition radio (options : list str) (pick : nat) : str :=
  selectbox [] options 0 (Some pick).

(** [st.text_input(label, value=v)]: what the user typed, else [v]. *)
Definition text_input {A} (typed : option A) (value : A) : A :=
  match typed with
  | Some s => s
  | None => value
  end.

Definition main_modules : list str :=
  [u "Dashboard"; u "Patients (full CRUD)"; u "Doctors (full CRUD)";
   u "Staff (full CRUD)"; u "Appointments"; u "Lab & Investigations";
   u "Pharmacy Inventory"; u "Departments"; u "Reports"].

Definition actions : list str := [u "Add New"; u "Edit / Delete"].

Definition add_genders : list str := [u ""; u "Male"; u "Female"; u "Other"].
Definition add_bloods : list str :=
  [u ""; u "A+"; u "A-"; u "B+"; u "B-"; u "O+"; u "O-"; u "AB+"; u "AB-"].
Definition edit_genders : list str := [u "Male"; u "Female"; u "Other"].
Definition edit_bloods : list str :=
  [u "A+"; u "A-"; u "B+"; u "B-"; u "O+"; u "O-"; u "AB+"; u "AB-"].

(** [l.index(x)]: the first position of [x], or ValueError. *)
Fixpoint index_of (x : str) (l : list str) : option nat :=
  match l with
  | [] => None
  | y :: l' => if Text.eqb y x then Some 0 else option_map S (index_of x l')
  end.

(** The [index=] argument of the gender box of the edit form:
    [0 if pd.isna(p['gender']) else ["Male","Female","Other"].index(p['gender'])] *)
Definition edit_gender_index (p : Patient.t) : exn + nat :=
  match Patient.gender p with
  | None => inr 0
  | Some g =>
      match index_of g edit_genders with
      | Some k => inr k
      | None => inl ValueError
      end
  end.

(** The [index=] argument of the blood group box of the edit form: [index=0]. *)
Definition edit_blood_index (p : Patient.t) : nat := 0.

Definition lift {A} (r : exn + A) : Script A :=
  match r with
  | inl e => raise e
  | inr a => ret a
  end.

(** The labels the [elif] of the doctors and staff branch compares with:
    a man or woman health worker emoji (U+1F468 or U+1F469, U+200D, U+2695,
    U+FE0F), a space, and the module name. *)
Definition doctors_staff_pages : list str :=
  [[128104; 8205; 9877; 65039]%N ++ u " Doctors (full CRUD)";
   [128105; 8205; 9877; 65039]%N ++ u " Staff (full CRUD)"].

Definition in_list (x : str) (l : list str) : bool := existsb (Text.eqb x) l.

(** *** The script, top to bottom *)

(** Lines 68-69: the login flag is created false when the session has none. *)
Definition init_session : Script unit :=
  fun w =>
    match logged_in w with
    | None => set_logged_in false w
    | Some _ => (Ret tt, w)
    end.

(** Lines 74-96: the sidebar chooses [page]. *)
Definition sidebar (i : inputs) : Script str :=
  li <- get_logged_in ;;
  if li then
    let page := radio main_modules (in_page i) in
    (if in_logout i then set_logged_in false ;; rerun else ret tt) ;;
    ret page
  else ret (u "Login").

(** The credential test of the Login button. *)
Definition credentials_ok (username password : str) : bool :=
  Text.eqb (strip username) (u "admin") && Text.eqb password (u "admin123").

(** Lines 101-118: the login screen, which ends the run. *)
Definition login_screen (i : inputs) : Script unit :=
  li <- get_logged_in ;;
  if negb li then
    emit (Title (u "MedCare Hospital Management")) ;;
    emit (Subheader (u "Login (Demo Mode)")) ;;
    (if in_login i then
       if credentials_ok (in_username i) (in_password i) then
         set_logged_in true ;;
         emit (Success (u "Login successful!")) ;;
         rerun
       else
         emit (Error (u "Invalid credentials")) ;;
         emit (Info (u "Use: admin / admin123"))
     else ret tt) ;;
    stop
  else ret tt.

(** [run_query(...)['cnt'][0]] *)
Definition count_of (r : option frame) : Script Z :=
  match r with
  | Some (FCount n) => ret n
  | _ => raise TypeError
  end.

(** Lines 144-153. *)
Definition dashboard : Script unit :=
  r <- run_query (SelectCount TPatients) true false ;;
  p <- count_of r ;;
  r <- run_query (SelectCount TDoctors) true false ;;
  d <- count_of r ;;
  r <- run_query (SelectCount TStaff) true false ;;
  s <- count_of r ;;
  emit (Metric (u "Patients") p) ;;
  emit (Metric (u "Doctors") d) ;;
  emit (Metric (u "Staff") s).

(** The statement of the search box: [%search%] bound three times when
    there is a search text, all rows otherwise. *)
Definition search_stmt (search : str) : stmt :=
  if truthy search then
    let pat := u "%" ++ search ++ u "%" in
    SelectPatientsLike pat pat pat
  else SelectPatients.

(** Lines 160-172: tab "List & Search". *)
Definition list_and_search (i : inputs) : Script unit :=
  let search := in_search i in
  df <- run_query (search_stmt search) true false ;;
  match df with
  | Some f =>
      if negb (frame_empty f) then emit (Dataframe f)
      else emit (Info (if truthy search then u "No patients found" else u "No patients yet"))
  | None =>
      emit (Info (if truthy search then u "No patients found" else u "No patients yet"))
  end.

(** Lines 178-197: mode "Add New". *)
Definition add_new (i : inputs) : Script unit :=
  let fn := in_fn i in
  let ln := in_ln i in
  let ph := in_ph i in
  let g := selectbox [] add_genders 0 (Some (in_gender i)) in
  let blood := selectbox [] add_bloods 0 (Some (in_blood i)) in
  if in_create i then
    if truthy fn && truthy ln && truthy ph then
      run_query (InsertPatient fn ln ph g blood) false true ;;
      emit (Success (u "Patient created!")) ;;
      rerun
    else emit (Warning (u "Required fields missing"))
  else ret tt.

(** [patients[patients['label'] == choice]['id'].iloc[0]]: the id of the
    first row whose label equals the chosen one; a NULL label equals
    nothing, and [iloc[0]] of no rows is an IndexError. *)
Definition id_of_choice (rows : list (Z * option str)) (choice : option str) : exn + Z :=
  match find (fun row => Sql.opt_eqb (snd row) choice) rows with
  | Some row => inr (fst row)
  | None => inl IndexError
  end.

(** Lines 205-238: the edit form of the selected patient. *)
Definition edit_form (i : inputs) (pid : Z) (p : Patient.t) : Script unit :=
  let e_fn := text_input (in_e_fn i) (Patient.first_name p) in
  let e_ln := text_input (in_e_ln i) (Patient.last_name p) in
  let e_ph := text_input (option_map Some (in_e_ph i)) (Patient.phone p) in
  gi <- lift (edit_gender_index p) ;;
  let e_gender := selectbox [] edit_genders gi (in_e_gender i) in
  let e_blood := selectbox [] edit_bloods (edit_blood_index p) (in_e_blood i) in
  (if in_update i then
     run_query (UpdatePatient e_fn e_ln e_ph e_gender e_blood pid) false true ;;
     emit (Success (u "Updated!")) ;;
     rerun
   else ret tt) ;;
  (if in_delete i then
     if in_confirm i then
       run_query (DeletePatient pid) false true ;;
       emit (Success (u "Deleted!")) ;;
       rerun
     else ret tt
   else ret tt).

(** Lines 199-238: mode "Edit / Delete". *)
Definition edit_delete (i : inputs) : Script unit :=
  patients <- run_query SelectLabels true false ;;
  match patients with
  | Some (FLabels (row :: rows')) =>
      let rows := row :: rows' in
      let choice := selectbox None (map snd rows) 0 (Some (in_patient i)) in
      pid <- lift (id_of_choice rows choice) ;;
      data <- run_query (SelectPatientById pid) true false ;;
      match data with
      | Some (FPatients (p :: _)) => edit_form i pid p
      | _ => ret tt
      end
  | _ => emit (Info (u "No patients yet"))
  end.

(** Lines 156-238. *)
Definition patients_page (i : inputs) : Script unit :=
  list_and_search i ;;
  let mode := radio actions (in_mode i) in
  if Text.eqb mode (u "Add New") then add_new i else edit_delete i.

(** Lines 241-259. *)
Definition doctors_staff (page : str) : Script unit :=
  let table := if contains (u "Doctors") page then TDoctors else TStaff in
  let title := if contains (u "Doctors") page then u "Doctor" else u "Staff Member" in
  emit (Subheader (title ++ u " Management " ++ [8211%N] ++ u " Full CRUD")) ;;
  df <- run_query (SelectOrdered table) true false ;;
  match df with
  | Some f => emit (Dataframe f)
  | None => ret tt
  end ;;
  emit (Info (u "Full CRUD pattern is ready. Copy the **Patients** management code and: 1. Change table name to '"
              ++ table_name table ++ u "' 2. Adjust fields accordingly")).

(** Lines 262-271. *)
Definition placeholder (page : str) : Script unit :=
  emit (Success (u "Module: " ++ page)) ;;
  emit (Info (u "This module is prepared for implementation. Recommended next steps: 1. Create corresponding table in init_database() 2. Copy the full CRUD pattern from Patients module 3. Adjust fields and table name")).

(** Which branch of the [if]/[elif] chain of lines 144-271 a page takes. *)
Inductive branch := BDashboard | BPatients | BDoctorsStaff | BPlaceholder.

Definition dispatch (page : str) : branch :=
  if Text.eqb page (u "Dashboard") then BDashboard
  else if Text.eqb page (u "Patients (full CRUD)") then BPatients
  else if in_list page doctors_staff_pages then BDoctorsStaff
  else BPlaceholder.

Definition main_area (i : inputs) (page : str) : Script unit :=
  emit (Title (u "MedCare Hospital " ++ [8594%N] ++ u " " ++ page)) ;;
  match dispatch page with
  | BDashboard => dashboard
  | BPatients => patients_page i
  | BDoctorsStaff => doctors_staff page
  | BPlaceholder => placeholder page
  end.

(** The whole script; rules and the footer caption render no state. *)
Definition app (i : inputs) : Script unit :=
  init_db ;;
  init_session ;;
  page <- sidebar i ;;
  login_screen i ;;
  main_area i page.

(** One run: the page is rendered from scratch, the rest of the world is
    what the previous run left. *)
Definition clear_out (w : world) : world :=
  mkWorld (logged_in w) (store w) (open_conns w) (clock w) [].

Definition run (i : inputs) (w : world) : outcome unit * world := app i (clear_out w).

(** [get(id)] of the store contract: the row with that id, if any. *)
Definition get (d : db) (pid : Z) : option Patient.t :=
  find (Sql.has_id pid) (patients d).

Definition patient_count (d : db) : nat := List.length (patients d).

(** Rows holding a given phone. *)
Definition with_phone (ph : str) (d : db) : list Patient.t :=
  filter (fun r => Sql.opt_eqb (Patient.phone r) (Some ph)) (patients d).

(** The statements a run handed to the database, in order. *)
Definition statements (w : world) : list stmt :=
  flat_map (fun e => match e with Sql q => [q] | _ => [] end) (out w).

(** What SQLite keeps true of the patients table: ids are distinct
    (PRIMARY KEY) and phones that are not NULL are distinct (UNIQUE). *)
Definition well_formed (d : db) : Prop :=
  NoDup (map Patient.id (patients d)) /\
  forall ph, (List.length (with_phone ph d) <= 1)%nat.

(** A fresh session on a given database. *)
Definition fresh_session (d : db) (now : str) : world :=
  mkWorld None d 0 now [].



(** The user is logged in, stays so, and has the Patients module selected. *)
Definition on_patients_page (i : inputs) (w : world) : Prop :=
  logged_in w = Some true /\
  in_logout i = false /\
  radio main_modules (in_page i) = u "Patients (full CRUD)".

(** The user presses "Create Patient" on the "Add New" form. *)
Definition create_submission (i : inputs) (w : world) : Prop :=
  on_patients_page i w /\
  radio actions (in_mode i) = u "Add New" /\
  in_create i = true.

(** The row the "Add New" form asks the store to insert. *)
Definition submitted (i : inputs) : stmt :=
  InsertPatient (in_fn i) (in_ln i) (in_ph i)
                (selectbox [] add_genders 0 (Some (in_gender i)))
                (selectbox [] add_bloods 0 (Some (in_blood i))).

(** ** Reasoning about scripts

    [triple P m Q E]: from a world in [P], [m] returns [a] in a world in
    [Q a], or leaves early in a world in [E]. *)
Definition triple {A} (P : world -> Prop) (m : Script A)
    (Q : A -> world -> Prop) (E : world -> Prop) : Prop :=
  forall w, P w ->
    match m w with
    | (Ret a, w') => Q a w'
    | (_, w') => E w'
    end.

(** [passes P J m]: from a world in [P], [m] returns in a world in [P],
    or leaves early in a world in [J]. *)
Definition passes {A} (P J : world -> Prop) (m : Script A) : Prop :=
  triple P m (fun _ => P) J.

(** A property of worlds that looks at the database and at the statements
    issued so far, and at nothing else. *)
Definition quiet (I : world -> Prop) : Prop :=
  forall w w', store w' = store w -> statements w' = statements w -> I w -> I w'.

(** The world after the statement [q] went to the database. *)
Definition issued (q : stmt) (w : world) : world :=
  mkWorld (logged_in w) (store w) (open_conns w) (clock w) (out w ++ [Sql q]).

(** [P] survives the statement [q], whether it fails, returns rows, or
    changes the database. *)
Definition survives (P : world -> Prop) (q : stmt) : Prop :=
  forall w, P w ->
    P (issued q w) /\
    forall fr d', Sql.exec q (clock w) (store w) = inr (fr, d') ->
                  P (set_store d' (issued q w)).

Definition not_sql (e : event) : Prop :=
  match e with
  | Sql _ => False
  | _ => True
  end.


(** ** Worlds and invariants used in the proofs *)

(** The world after more output has been rendered. *)
Definition rendered (es : list event) (w : world) : world :=
  mkWorld (logged_in w) (store w) (open_conns w) (clock w) (out w ++ es).

(** A world in which the list tab has run its query, and nothing has been
    reported yet. *)
Definition only_listed (i : inputs) (w : world) : Prop :=
  statements w = [search_stmt (in_search i)] /\
  (forall e, In e (out w) ->
     (forall s, e <> Success s) /\ (forall s, e <> Warning s) /\ (forall s, e <> Error s)).

(** The doctors and staff tables stay as they are and are never listed. *)
Definition untouched (D : list Doctor.t) (S : list Staff.t) (w : world) : Prop :=
  doctors (store w) = D /\ staff (store w) = S /\
  forall t, ~ In (SelectOrdered t) (statements w).




(** ** The edit form's selection, and how a run ends *)

(** The rows of the label query of line 200. *)
Definition label_rows (d : db) : list (Z * option str) :=
  map (fun r => (Patient.id r, Sql.label r)) (patients d).

(** Lines 205-206: the id the edit form works on, for the label the select
    box returns. *)
Definition chosen_id (i : inputs) (d : db) : exn + Z :=
  id_of_choice (label_rows d)
               (selectbox None (map snd (label_rows d)) 0 (Some (in_patient i))).


(** The user is on the Patients module with the action "Edit / Delete". *)
Definition editing (i : inputs) (w : world) : Prop :=
  on_patients_page i w /\
  radio actions (in_mode i) = u "Edit / Delete".

(** How a run can end before the end of the script. *)
Inductive exit := ByRerun | ByStop | ByRaise (e : exn).

Definition exit_of {A} (o : outcome A) : option exit :=
  match o with
  | Ret _ => None
  | Rerun => Some ByRerun
  | Stop => Some ByStop
  | Raise e => Some (ByRaise e)
  end.

(** [walks P E m]: from a world in [P], [m] returns in a world in [P], or
    leaves early by [x] in a world in [E x]. *)
Definition walks {A} (P : world -> Prop) (E : exit -> world -> Prop)
    (m : Script A) : Prop :=
  forall w, P w ->
    match exit_of (fst (m w)) with
    | None => P (snd (m w))
    | Some x => E x (snd (m w))
    end.

(** [d'] is what the statement [q] makes of [d] at time [now]: its result
    when it succeeds, [d] itself when it fails. *)
Definition applied (q : stmt) (now : str) (d d' : db) : Prop :=
  match Sql.exec q now d with
  | inl _ => d' = d
  | inr (_, d1) => d' = d1
  end.

(** Nothing but reads has gone to the database. *)
Definition only_reads (w : world) : Prop :=
  Forall (fun q => Sql.mutating q = false) (statements w).

(** The run has handed exactly one changing statement to the database, as
    its last one, and the store is what that statement made of [d0]. *)
Definition one_change (d0 : db) (now : str) (w : world) : Prop :=
  exists pre q,
    statements w = pre ++ [q] /\
    Forall (fun q' => Sql.mutating q' = false) pre /\
    Sql.mutating q = true /\
    applied q now d0 (store w).

(** The columns no statement of the script writes after the insert. *)
Definition same_origin (p p' : Patient.t) : Prop :=
  Patient.id p' = Patient.id p /\
  Patient.dob p' = Patient.dob p /\
  Patient.created_at p' = Patient.created_at p.

(** The session flag, the open connections and the clock are these. *)
Definition steady (li : option bool) (n : nat) (now : str) (w : world) : Prop :=
  logged_in w = li /\ open_conns w = n /\ clock w = now.

(** The store is still [d0] at time [now], and only reads have been run. *)
Definition unchanged (d0 : db) (now : str) (w : world) : Prop :=
  store w = d0 /\ clock w = now /\ only_reads w.

(** ** Sample data for concrete runs *)

Module Sample.

Definition ann : Patient.t :=
  Patient.mk 1 (u "Ann") (u "Lee") (Some (u "555")) (Some (u "Female")) None
             (Some (u "O+")) (Some (u "2026-01-01 09:00:00")).

Definition bob : Patient.t :=
  Patient.mk 2 (u "Bob") (u "Ray") (Some (u "777")) (Some (u "")) None
             (Some (u "")) (Some (u "2026-01-02 09:00:00")).

Definition kim : Doctor.t :=
  Doctor.mk 1 (u "Kim") (u "ENT") None (Some (u "Ward A")).

Definition hospital : db := mkDb [ann; bob] 2 [kim] [].

Definition now : str := u "2026-01-03 09:00:00".

(** A session that is logged in, and one that has just begun. *)
Definition logged (d : db) : world := mkWorld (Some true) d 0 now [].
Definition begun (d : db) : world := fresh_session d now.

(** Nothing typed, nothing pressed, the module at [page] selected. *)
Definition select_page (page : nat) : inputs :=
  mkInputs page false [] [] false [] 0 [] [] [] 0 0 false 0
           None None None None None false false false.

(** The Login button with a username and a password. *)
Definition press_login (username password : str) : inputs :=
  mkInputs 0 false username password true [] 0 [] [] [] 0 0 false 0
           None None None None None false false false.

(** The Create Patient button on the Add New form. *)
Definition press_create (fn ln ph : str) (g blood : nat) : inputs :=
  mkInputs 1 false [] [] false [] 0 fn ln ph g blood true 0
           None None None None None false false false.

(** The Delete Patient button for the [k]-th label, with or without the
    confirmation. *)
Definition press_delete (k : nat) (confirm : bool) : inputs :=
  mkInputs 1 false [] [] false [] 1 [] [] [] 0 0 false k
           None None None None None false true confirm.

End Sample.

(** Every id in the patients table is at most the AUTOINCREMENT counter. *)
Definition ids_counted (d : db) : Prop :=
  forall r, In r (patients d) -> (Patient.id r <= patients_seq d)%Z.

(** ** More sample data: the edit form *)

Module Cases.

(** A patient whose phone is NULL. *)
Definition zoe : Patient.t :=
  Patient.mk 3 (u "Zoe") (u "Orr") None (Some (u "Other")) None
             (Some (u "B+")) (Some (u "2026-01-02 10:00:00")).

Definition clinic : db := mkDb [Sample.ann; zoe] 3 [] [].


(** The edit form of the [k]-th label, no button pressed. *)
Definition open_form (k : nat) : inputs :=
  mkInputs 1 false [] [] false [] 1 [] [] [] 0 0 false k
           None None None None None false false false.

End Cases.

(** * Properties *)

Unset Implicit Arguments.

(** Normalises the list of statements of a world built by the script. *)
Ltac stmts :=
  unfold statements, issued, set_store; simpl;
  rewrite ?flat_map_app; simpl; rewrite ?app_nil_r; try reflexivity.

(** ** Text *)

Lemma eqb_eq (a b : str) : Text.eqb a b = true <-> a = b.
Proof.
  revert b; induction a as [|x a IH]; intros [|y b]; simpl; split; intro H;
    try reflexivity; try discriminate.
  - apply andb_true_iff in H as [Hx Hab].
    apply N.eqb_eq in Hx. apply IH in Hab. now subst.
  - injection H as -> ->. rewrite N.eqb_refl. simpl. now apply IH.
Qed.

Lemma eqb_refl (a : str) : Text.eqb a a = true.
Proof. now apply eqb_eq. Qed.

Lemma eqb_neq (a b : str) : Text.eqb a b = false <-> a <> b.
Proof.
  split.
  - intros H E. apply eqb_eq in E. congruence.
  - intro H. destruct (Text.eqb a b) eqn:E; [|reflexivity].
    apply eqb_eq in E. contradiction.
Qed.

Lemma truthy_nonempty (s : str) : truthy s = true <-> s <> [].
Proof. destruct s; simpl; split; congruence. Qed.




(** ** Rules for scripts *)

Lemma statements_app (w : world) (e : event) :
  statements (mkWorld (logged_in w) (store w) (open_conns w) (clock w) (out w ++ [e]))
  = statements w ++ match e with Sql q => [q] | _ => [] end.
Proof.
  unfold statements. simpl. rewrite flat_map_app. simpl. now rewrite app_nil_r.
Qed.

Section Rules.
Variables P J : world -> Prop.
Hypothesis P_quiet : quiet P.
Hypothesis P_J : forall w, P w -> J w.

Lemma passes_ret A (a : A) : passes P J (ret a).
Proof. intros w H. exact H. Qed.

Lemma passes_rerun A : passes P J (@rerun A).
Proof. intros w H. simpl. now apply P_J. Qed.

Lemma passes_stop A : passes P J (@stop A).
Proof. intros w H. simpl. now apply P_J. Qed.

Lemma passes_raise A (e : exn) : passes P J (@raise A e).
Proof. intros w H. simpl. now apply P_J. Qed.

Lemma passes_lift A (r : exn + A) : passes P J (lift r).
Proof. destruct r; [apply passes_raise | apply passes_ret]. Qed.

Lemma passes_bind A B (m : Script A) (k : A -> Script B) :
  passes P J m -> (forall a, passes P J (k a)) -> passes P J (bind m k).
Proof.
  intros Hm Hk w H. unfold bind. specialize (Hm w H).
  destruct (m w) as [[a| | |e] w']; try exact Hm.
  now apply Hk.
Qed.

Lemma passes_emit (e : event) : not_sql e -> passes P J (emit e).
Proof.
  intros He w H. simpl. apply (P_quiet w); [reflexivity| |exact H].
  rewrite statements_app. destruct e; simpl in He; try contradiction; now rewrite app_nil_r.
Qed.

Lemma passes_set_logged_in (b : bool) : passes P J (set_logged_in b).
Proof. intros w H. simpl. now apply (P_quiet w). Qed.

Lemma passes_get_logged_in : passes P J get_logged_in.
Proof.
  intros w H. unfold get_logged_in. destruct (logged_in w); [exact H | now apply P_J].
Qed.

Lemma passes_init_session : passes P J init_session.
Proof.
  intros w H. unfold init_session. destruct (logged_in w); [exact H|].
  now apply (P_quiet w).
Qed.

Lemma passes_init_db : passes P J init_db.
Proof. intros w H. simpl. now apply (P_quiet w). Qed.

Lemma passes_run_query (q : stmt) (fetch_df commit : bool) :
  survives P q -> passes P J (run_query q fetch_df commit).
Proof.
  intros Hq w H. destruct (Hq w H) as [H1 H2].
  unfold run_query, bind, get_db, emit, conn_close, ret. simpl.
  destruct (Sql.exec q (clock w) (store w)) as [e | [fr d']] eqn:Ex; simpl.
  - apply (P_quiet (issued q w)); [reflexivity| |exact H1].
    stmts.
  - destruct fetch_df.
    + destruct fr as [f|]; simpl.
      * apply (P_quiet (issued q w)); [reflexivity|stmts|exact H1].
      * apply (P_quiet (issued q w)); [reflexivity| |exact H1].
        stmts.
    + simpl. destruct commit.
      * apply (P_quiet (set_store d' (issued q w)));
          [reflexivity|stmts|eapply H2; reflexivity].
      * apply (P_quiet (issued q w)); [reflexivity|stmts|exact H1].
Qed.
End Rules.

(** ** The branch a page takes *)

Lemma radio_main_modules (k : nat) : In (radio main_modules k) main_modules.
Proof.
  unfold radio, selectbox.
  do 9 (destruct k as [|k]; [simpl; tauto|]).
  destruct k; simpl; tauto.
Qed.

Lemma dispatch_main_modules (page : str) :
  In page main_modules -> dispatch page <> BDoctorsStaff.
Proof.
  intro H. simpl in H.
  repeat (destruct H as [<- | H]; [vm_compute; discriminate|]).
  contradiction.
Qed.

Lemma sidebar_page (i : inputs) (w : world) (page : str) :
  fst (sidebar i w) = Ret page -> dispatch page <> BDoctorsStaff.
Proof.
  unfold sidebar, bind, get_logged_in.
  destruct (logged_in w) as [[|]|]; simpl; try discriminate.
  - destruct (in_logout i); simpl; [discriminate|].
    intro H. injection H as <-. apply dispatch_main_modules, radio_main_modules.
  - intro H. injection H as <-. vm_compute. discriminate.
Qed.

(** Walks a script rule by rule; [others] proves that the statements met
    on the way keep the invariant. *)
Ltac walk others :=
  repeat match goal with
    | |- passes _ _ (ret _) => apply passes_ret
    | |- passes _ _ rerun => apply passes_rerun; assumption
    | |- passes _ _ stop => apply passes_stop; assumption
    | |- passes _ _ (raise _) => apply passes_raise; assumption
    | |- passes _ _ (lift _) => apply passes_lift; assumption
    | |- passes _ _ (emit _) => apply passes_emit; [assumption | exact I]
    | |- passes _ _ (set_logged_in _) => apply passes_set_logged_in; assumption
    | |- passes _ _ get_logged_in => apply passes_get_logged_in; assumption
    | |- passes _ _ (run_query _ _ _) =>
        apply passes_run_query; [assumption | apply others; discriminate]
    | |- passes _ _ (bind _ _) => apply passes_bind; [| intros ?]
    | |- passes _ _ (if ?b then _ else _) => destruct b eqn:?
    | |- passes _ _ (match ?x with _ => _ end) => destruct x eqn:?
    end.

(** ** Walking the whole script with an invariant

    Every statement the script can issue, other than the DELETE and the
    ORDER BY query, is assumed to keep [P]; the DELETE sequence is assumed
    to pass when the button and the confirmation are both set. *)

Section Walk.
Variables (P J : world -> Prop) (i : inputs).
Hypothesis P_quiet : quiet P.
Hypothesis P_J : forall w, P w -> J w.
Hypothesis others :
  forall q, (forall t, q <> SelectOrdered t) -> (forall pid, q <> DeletePatient pid) ->
            survives P q.
Hypothesis deletion :
  forall pid, in_delete i = true -> in_confirm i = true ->
    passes P J (run_query (DeletePatient pid) false true ;;
                emit (Success (u "Deleted!")) ;; @rerun unit).

Lemma passes_bind_val A B (m : Script A) (k : A -> Script B) (V : A -> Prop) :
  passes P J m -> (forall w a, fst (m w) = Ret a -> V a) ->
  (forall a, V a -> passes P J (k a)) -> passes P J (bind m k).
Proof.
  intros Hm HV Hk w H. unfold bind. specialize (Hm w H). specialize (HV w).
  destruct (m w) as [[a| | |e] w']; try exact Hm.
  apply Hk; [|exact Hm]. now apply HV.
Qed.

Lemma passes_sidebar : passes P J (sidebar i).
Proof. unfold sidebar. walk others. Qed.

Lemma passes_login_screen : passes P J (login_screen i).
Proof. unfold login_screen. walk others. Qed.

Lemma passes_dashboard : passes P J dashboard.
Proof. unfold dashboard, count_of. walk others. Qed.

Lemma passes_list_and_search : passes P J (list_and_search i).
Proof.
  unfold list_and_search, search_stmt. cbv zeta.
  apply passes_bind; [|intros ?; walk others].
  apply passes_run_query; [assumption|].
  apply others; destruct (truthy (in_search i)); discriminate.
Qed.

Lemma passes_add_new : passes P J (add_new i).
Proof. unfold add_new. cbv zeta. walk others. Qed.

Lemma passes_edit_form (pid : Z) (p : Patient.t) : passes P J (edit_form i pid p).
Proof.
  unfold edit_form. cbv zeta.
  apply passes_bind; [walk others | intros gi].
  apply passes_bind; [walk others | intros _].
  destruct (in_delete i) eqn:Hd; [|walk others].
  destruct (in_confirm i) eqn:Hc; [|walk others].
  now apply deletion.
Qed.

Lemma passes_edit_delete : passes P J (edit_delete i).
Proof.
  unfold edit_delete.
  apply passes_bind; [walk others | intros r].
  destruct r as [[]|]; try solve [walk others].
  destruct rows; [walk others|]. cbv zeta.
  apply passes_bind; [walk others | intros pid].
  apply passes_bind; [walk others | intros data].
  destruct data as [[]|]; try solve [walk others].
  destruct rows0; [walk others|]. apply passes_edit_form.
Qed.

Lemma passes_patients_page : passes P J (patients_page i).
Proof.
  unfold patients_page. cbv zeta.
  apply passes_bind; [apply passes_list_and_search | intros _].
  destruct (Text.eqb _ _); [apply passes_add_new | apply passes_edit_delete].
Qed.

Lemma passes_placeholder (page : str) : passes P J (placeholder page).
Proof. unfold placeholder. walk others. Qed.

Lemma passes_main_area (page : str) :
  dispatch page <> BDoctorsStaff -> passes P J (main_area i page).
Proof.
  intro H. unfold main_area.
  apply passes_bind; [walk others | intros _].
  destruct (dispatch page); try contradiction.
  - apply passes_dashboard.
  - apply passes_patients_page.
  - apply passes_placeholder.
Qed.

Lemma passes_app : passes P J (app i).
Proof.
  unfold app.
  apply passes_bind; [now apply passes_init_db | intros _].
  apply passes_bind; [now apply passes_init_session | intros _].
  apply passes_bind_val with (V := fun page => dispatch page <> BDoctorsStaff).
  - apply passes_sidebar.
  - apply sidebar_page.
  - intros page Hp.
    apply passes_bind; [apply passes_login_screen | intros _].
    now apply passes_main_area.
Qed.

(** What the walk gives for one run. *)
Lemma run_passes (w : world) : P (clear_out w) -> J (snd (run i w)).
Proof.
  intro H. pose proof (passes_app (clear_out w) H) as HR.
  unfold run. destruct (app i (clear_out w)) as [[[]| | |e] w']; simpl; auto.
Qed.
End Walk.

(** ** The store *)

Lemma exec_leaves_doctors_staff (q : stmt) (now : str) (d d' : db) (fr : option frame) :
  Sql.exec q now d = inr (fr, d') ->
  doctors d' = doctors d /\ staff d' = staff d.
Proof.
  destruct q as [[]| | | | | | | |[]]; simpl; intro H;
    try (injection H as _ <-; now split); try discriminate.
  - destruct (Sql.phone_taken _ _ _); [discriminate|]. injection H as _ <-. now split.
  - destruct (_ && _); [discriminate|]. injection H as _ <-. now split.
Qed.


Lemma has_id_apply_update fn ln ph g blood pid pid' (r : Patient.t) :
  Sql.has_id pid' (Sql.apply_update fn ln ph g blood pid r) = Sql.has_id pid' r.
Proof. unfold Sql.apply_update. now destruct (Sql.has_id pid r). Qed.



(** After DELETE the id is gone. *)
Lemma find_after_delete (pid : Z) (rows : list Patient.t) :
  find (Sql.has_id pid) (filter (fun r => negb (Sql.has_id pid r)) rows) = None.
Proof.
  induction rows as [|r rows IH]; simpl; [reflexivity|].
  destruct (Sql.has_id pid r) eqn:E; simpl; [exact IH|]. now rewrite E.
Qed.



(** ** Three invariants of a run *)

Lemma untouched_quiet D S : quiet (untouched D S).
Proof. intros w w' Hs Ht (H1 & H2 & H3). unfold untouched. now rewrite Hs, Ht. Qed.

Lemma In_statements_issued (q q' : stmt) (w : world) :
  In q' (statements (issued q w)) <-> In q' (statements w) \/ q' = q.
Proof.
  unfold statements, issued. simpl. rewrite flat_map_app, in_app_iff. simpl.
  intuition congruence.
Qed.

Lemma untouched_survives D S (q : stmt) :
  (forall t, q <> SelectOrdered t) -> survives (untouched D S) q.
Proof.
  intros Hq w (H1 & H2 & H3).
  assert (H3' : forall t, ~ In (SelectOrdered t) (statements (issued q w))).
  { intros t Ht. apply In_statements_issued in Ht as [Ht | Ht].
    - now apply (H3 t).
    - now apply (Hq t). }
  split; [now repeat split|].
  intros fr d' Ex. apply exec_leaves_doctors_staff in Ex as [E1 E2].
  repeat split; simpl; [congruence | congruence | exact H3'].
Qed.

Lemma run_untouched (i : inputs) (w : world) :
  untouched (doctors (store w)) (staff (store w)) (snd (run i w)).
Proof.
  apply run_passes with (P := untouched (doctors (store w)) (staff (store w))).
  - apply untouched_quiet.
  - auto.
  - intros q Hq _. now apply untouched_survives.
  - intros pid _ _.
    apply passes_bind; [|intros _; apply passes_bind; [|intros _]].
    + apply passes_run_query; [apply untouched_quiet|].
      apply untouched_survives. discriminate.
    + apply passes_emit; [apply untouched_quiet | exact I].
    + apply passes_rerun. auto.
  - repeat split. intros t [].
Qed.








(** ** What [run_query] returns *)

Lemma run_query_failed (q : stmt) (fetch_df commit : bool) (w : world) (e : sql_error) :
  Sql.exec q (clock w) (store w) = inl e ->
  run_query q fetch_df commit w
  = (Ret None, rendered [Sql q; Error (u "Database error: " ++ error_text e)] w).
Proof.
  intro H. unfold run_query, bind, get_db, emit, conn_close, ret, rendered.
  cbn [logged_in store open_conns clock out fst snd pred]. rewrite H.
  cbn [logged_in store open_conns clock out fst snd pred]. now rewrite <- app_assoc.
Qed.

Lemma run_query_executed (q : stmt) (commit : bool) (w : world)
    (fr : option frame) (d' : db) :
  Sql.exec q (clock w) (store w) = inr (fr, d') ->
  run_query q false commit w
  = (Ret None, rendered [Sql q] (if commit then set_store d' w else w)).
Proof.
  intro H. unfold run_query, bind, get_db, emit, conn_close, ret, rendered.
  cbn [logged_in store open_conns clock out fst snd pred]. rewrite H.
  destruct commit; reflexivity.
Qed.

Lemma run_query_fetched (q : stmt) (commit : bool) (w : world) (f : frame) (d' : db) :
  Sql.exec q (clock w) (store w) = inr (Some f, d') ->
  run_query q true commit w = (Ret (Some f), rendered [Sql q] w).
Proof.
  intro H. unfold run_query, bind, get_db, emit, conn_close, ret, rendered.
  cbn [logged_in store open_conns clock out fst snd pred]. now rewrite H.
Qed.

(** ** The path to the "Add New" form *)

Lemma bind_returns A B (m : Script A) (k : A -> Script B) (w w' : world) (a : A) :
  m w = (Ret a, w') -> bind m k w = k a w'.
Proof. intro H. unfold bind. now rewrite H. Qed.

Lemma list_and_search_returns (i : inputs) (w : world) :
  exists e, not_sql e /\ (forall s, e <> Success s) /\ (forall s, e <> Warning s) /\
            (forall s, e <> Error s) /\
    list_and_search i w = (Ret tt, rendered [Sql (search_stmt (in_search i)); e] w).
Proof.
  unfold list_and_search. cbv zeta.
  assert (Ex : exists rows, Sql.exec (search_stmt (in_search i)) (clock w) (store w)
                            = inr (Some (FPatients rows), store w)).
  { unfold search_stmt. destruct (truthy (in_search i)); simpl; eauto. }
  destruct Ex as [rows Ex].
  rewrite (@bind_returns _ _ _ _ _ _ _ (@run_query_fetched _ false _ _ _ Ex)).
  destruct rows as [|r rows]; cbn [frame_empty negb].
  - eexists. repeat split; [..|unfold emit, rendered; simpl; now rewrite <- app_assoc];
      simpl; try exact I; discriminate.
  - eexists. repeat split; [..|unfold emit, rendered; simpl; now rewrite <- app_assoc];
      simpl; try exact I; discriminate.
Qed.

Lemma app_logged_in (i : inputs) (w : world) :
  logged_in w = Some true -> in_logout i = false ->
  app i w = main_area i (radio main_modules (in_page i)) w.
Proof.
  destruct w as [li d n now o]. simpl. intros -> Hlo.
  cbv beta iota zeta delta
    [app init_db init_session sidebar login_screen bind get_db conn_close
     get_logged_in ret logged_in store open_conns clock out pred negb].
  rewrite Hlo. reflexivity.
Qed.

Lemma main_area_patients (i : inputs) (w : world) :
  main_area i (u "Patients (full CRUD)") w
  = patients_page i
      (rendered [Title (u "MedCare Hospital " ++ [8594%N] ++ u " "
                          ++ u "Patients (full CRUD)")] w).
Proof.
  unfold main_area. change (dispatch (u "Patients (full CRUD)")) with BPatients.
  reflexivity.
Qed.

Lemma patients_page_add_new (i : inputs) (w : world) :
  radio actions (in_mode i) = u "Add New" ->
  patients_page i w = (list_and_search i ;; add_new i) w.
Proof.
  intro Hm. unfold patients_page. cbv zeta. rewrite Hm.
  change (Text.eqb (u "Add New") (u "Add New")) with true. reflexivity.
Qed.

Lemma run_reaches_add_new (i : inputs) (w : world) :
  create_submission i w ->
  exists w1, run i w = add_new i w1 /\
             store w1 = store w /\ clock w1 = clock w /\ only_listed i w1.
Proof.
  intros ((Hl & Hlo & Hp) & Hm & Hc).
  destruct (list_and_search_returns i
              (rendered [Title (u "MedCare Hospital " ++ [8594%N] ++ u " "
                                  ++ u "Patients (full CRUD)")] (clear_out w)))
    as (e & He & Hs & Hw & Her & Hls).
  eexists. split; [|split; [|split]].
  - unfold run. rewrite app_logged_in by assumption.
    rewrite Hp, main_area_patients, patients_page_add_new by assumption.
    rewrite (@bind_returns _ _ _ _ _ _ _ Hls). reflexivity.
  - reflexivity.
  - reflexivity.
  - split.
    + unfold statements, rendered. simpl.
      destruct e; simpl in He; try contradiction; reflexivity.
    + intros e' He'. simpl in He'.
      destruct He' as [<- | [<- | [<- | []]]]; repeat split; try discriminate; auto.
Qed.

Lemma add_new_unfold (i : inputs) :
  in_create i = true ->
  add_new i =
  if truthy (in_fn i) && truthy (in_ln i) && truthy (in_ph i) then
    run_query (submitted i) false true ;;
    emit (Success (u "Patient created!")) ;;
    rerun
  else emit (Warning (u "Required fields missing")).
Proof. intro H. unfold add_new, submitted. cbv zeta. now rewrite H. Qed.

(** ** Inserting a patient *)

Lemma phone_taken_with_phone (ph : str) (d : db) :
  Sql.phone_taken (Some ph) None (patients d) = false <-> with_phone ph d = [].
Proof.
  unfold Sql.phone_taken, with_phone.
  induction (patients d) as [|r rows IH]; simpl; [tauto|].
  rewrite andb_true_r. destruct (Sql.opt_eqb (Patient.phone r) (Some ph)); simpl.
  - split; discriminate.
  - exact IH.
Qed.

Lemma id_le_max_id (rows : list Patient.t) (r : Patient.t) :
  In r rows -> (Patient.id r <= Sql.max_id rows)%Z.
Proof.
  induction rows as [|x rows IH]; simpl; [contradiction|].
  intros [-> | H]; [lia|]. specialize (IH H). lia.
Qed.



(** What the store does with the INSERT of the "Add New" form. *)
Lemma insert_taken (i : inputs) (now : str) (d : db) :
  with_phone (in_ph i) d <> [] ->
  Sql.exec (submitted i) now d = inl UniqueFailed.
Proof.
  intro H. unfold submitted. simpl.
  destruct (Sql.phone_taken _ _ _) eqn:E; [reflexivity|].
  now apply phone_taken_with_phone in E.
Qed.


(** The three ways the "Create Patient" button ends. *)
Lemma create_blank (i : inputs) (w : world) :
  in_create i = true ->
  in_fn i = [] \/ in_ln i = [] \/ in_ph i = [] ->
  add_new i w = (Ret tt, rendered [Warning (u "Required fields missing")] w).
Proof.
  intros Hc Hb. rewrite add_new_unfold by exact Hc.
  replace (truthy (in_fn i) && truthy (in_ln i) && truthy (in_ph i)) with false;
    [reflexivity|].
  destruct Hb as [-> | [-> | ->]]; simpl;
    now rewrite ?andb_false_r.
Qed.

Lemma truthy_all (i : inputs) :
  in_fn i <> [] -> in_ln i <> [] -> in_ph i <> [] ->
  truthy (in_fn i) && truthy (in_ln i) && truthy (in_ph i) = true.
Proof.
  intros H1 H2 H3. apply truthy_nonempty in H1, H2, H3. now rewrite H1, H2, H3.
Qed.

Lemma create_failed (i : inputs) (w : world) (e : sql_error) :
  in_create i = true ->
  in_fn i <> [] -> in_ln i <> [] -> in_ph i <> [] ->
  Sql.exec (submitted i) (clock w) (store w) = inl e ->
  add_new i w
  = (Rerun, rendered [Sql (submitted i);
                      Error (u "Database error: " ++ error_text e);
                      Success (u "Patient created!")] w).
Proof.
  intros Hc H1 H2 H3 Ex. rewrite add_new_unfold, truthy_all by assumption.
  rewrite (@bind_returns _ _ _ _ _ _ _ (@run_query_failed _ false true _ _ Ex)).
  unfold bind, emit, rerun, rendered. simpl. now rewrite <- app_assoc.
Qed.


(** * The claims *)

(** ** Deleting a patient *)



(** ** Doctors and staff *)

(** C7.  No run of the script changes a doctor row: whatever the widgets
    return, the doctors table after the run is the doctors table before it,
    so no department is ever updated. *)
Theorem doctors_never_updated (i : inputs) (w : world) :
  doctors (store (snd (run i w))) = doctors (store w).
Proof. apply run_untouched. Qed.

(** C8.  The doctors and staff branch is dead.  No label of the sidebar
    takes it; "Doctors (full CRUD)" and "Staff (full CRUD)" take the
    placeholder branch and render its message; and no run lists the doctors
    or staff table or changes either of them. *)
Theorem doctors_staff_branch_unreachable :
  (forall page, In page main_modules -> dispatch page <> BDoctorsStaff) /\
  dispatch (u "Doctors (full CRUD)") = BPlaceholder /\
  dispatch (u "Staff (full CRUD)") = BPlaceholder /\
  (forall i w,
     logged_in w = Some true -> in_logout i = false ->
     radio main_modules (in_page i) = u "Doctors (full CRUD)" \/
     radio main_modules (in_page i) = u "Staff (full CRUD)" ->
     run i w = placeholder (radio main_modules (in_page i))
                 (rendered [Title (u "MedCare Hospital " ++ [8594%N] ++ u " "
                                     ++ radio main_modules (in_page i))]
                           (clear_out w))) /\
  (forall i w,
     (forall t, ~ In (SelectOrdered t) (statements (snd (run i w)))) /\
     doctors (store (snd (run i w))) = doctors (store w) /\
     staff (store (snd (run i w))) = staff (store w)).
Proof.
  split; [exact dispatch_main_modules|].
  split; [reflexivity|]. split; [reflexivity|]. split.
  - intros i w Hl Hlo Hp. unfold run. rewrite app_logged_in by assumption.
    unfold main_area.
    destruct Hp as [-> | ->].
    + change (dispatch (u "Doctors (full CRUD)")) with BPlaceholder. reflexivity.
    + change (dispatch (u "Staff (full CRUD)")) with BPlaceholder. reflexivity.
  - intros i w. destruct (run_untouched i w) as (H1 & H2 & H3). auto.
Qed.

Lemma doctors_staff_branch_unreachable_witness :
  In (Success (u "Module: Doctors (full CRUD)"))
     (out (snd (run (Sample.select_page 2) (Sample.logged Sample.hospital)))).
Proof.
  destruct doctors_staff_branch_unreachable as (_ & _ & _ & H & _).
  rewrite (H (Sample.select_page 2) (Sample.logged Sample.hospital));
    [ | reflexivity | reflexivity | left; reflexivity ].
  vm_compute. right. left. reflexivity.
Defined.

(** ** Logging in *)

Lemma credentials_ok_iff (username password : str) :
  credentials_ok username password = true <->
  strip username = u "admin" /\ password = u "admin123".
Proof. unfold credentials_ok. now rewrite andb_true_iff, !eqb_eq. Qed.

(** A run that starts logged out is the login screen. *)
Lemma run_logged_out (i : inputs) (w : world) :
  logged_in w <> Some true ->
  run i w =
  let w0 := rendered [Title (u "MedCare Hospital Management");
                      Subheader (u "Login (Demo Mode)")]
                     (mkWorld (Some false) (store w) (open_conns w) (clock w) []) in
  if in_login i then
    if credentials_ok (in_username i) (in_password i) then
      (Rerun, rendered [Success (u "Login successful!")]
                       (mkWorld (Some true) (store w0) (open_conns w0) (clock w0) (out w0)))
    else
      (Stop, rendered [Error (u "Invalid credentials"); Info (u "Use: admin / admin123")] w0)
  else (Stop, w0).
Proof.
  destruct w as [[[|]|] d n now o]; simpl; intro H; try congruence;
    cbv beta iota zeta delta
      [run app init_db init_session sidebar login_screen bind get_db conn_close
       get_logged_in set_logged_in ret stop rerun emit clear_out rendered
       logged_in store open_conns clock out pred negb app];
    destruct (in_login i); try reflexivity;
    destruct (credentials_ok (in_username i) (in_password i)); reflexivity.
Qed.

Lemma run_logout (i : inputs) (w : world) :
  logged_in w = Some true -> in_logout i = true ->
  run i w = (Rerun, mkWorld (Some false) (store w) (open_conns w) (clock w) []).
Proof.
  destruct w as [li d n now o]. simpl. intros -> Hlo.
  cbv beta iota zeta delta
    [run app init_db init_session sidebar login_screen bind get_db conn_close
     get_logged_in set_logged_in ret stop rerun emit clear_out rendered
     logged_in store open_conns clock out pred negb app].
  rewrite Hlo. reflexivity.
Qed.

(** C3, as the claim states it, fails: the username [" admin"], which is
    not the demo username, logs in with the demo password. *)
Lemma login_exact_pair_counterexample :
  logged_in (snd (run (Sample.press_login (u " admin") (u "admin123"))
                      (Sample.begun Sample.hospital))) = Some true /\
  u " admin" <> u "admin".
Proof. split; [vm_compute; reflexivity | vm_compute; discriminate]. Qed.

(** C3, amended.  From a session that is not logged in, a run ends logged in
    if and only if the Login button was pressed with a username that is
    ["admin"] once surrounding white space is stripped and the password
    ["admin123"]; a Login press with any other pair leaves the session
    logged out and shows an error.  The flag is false after the first run of
    a session that did not log in, and false after Logout. *)
Theorem login_iff_credentials (i : inputs) (w : world) :
  (logged_in w <> Some true ->
   (logged_in (snd (run i w)) = Some true <->
    in_login i = true /\
    strip (in_username i) = u "admin" /\ in_password i = u "admin123") /\
   (in_login i = true ->
    ~ (strip (in_username i) = u "admin" /\ in_password i = u "admin123") ->
    logged_in (snd (run i w)) = Some false /\
    In (Error (u "Invalid credentials")) (out (snd (run i w))))) /\
  (logged_in w = None -> in_login i = false ->
   logged_in (snd (run i w)) = Some false) /\
  (logged_in w = Some true -> in_logout i = true ->
   logged_in (snd (run i w)) = Some false).
Proof.
  split; [|split].
  - intro H. rewrite run_logged_out by exact H. cbv zeta.
    rewrite <- credentials_ok_iff.
    destruct (in_login i); [destruct (credentials_ok _ _)|]; simpl.
    + split; [tauto|]. intros _ Hn. now elim Hn.
    + split; [split; [discriminate | intros [_ H']; discriminate]|].
      intros _ _. split; [reflexivity|]. right. right. now left.
    + split; [split; [discriminate|intros [H' _]; discriminate]|]. discriminate.
  - intros H Hb. rewrite run_logged_out by (rewrite H; discriminate).
    cbv zeta. now rewrite Hb.
  - intros H Hlo. now rewrite run_logout.
Qed.

Lemma login_iff_credentials_witness :
  logged_in (snd (run (Sample.press_login (u "admin ") (u "admin123"))
                      (Sample.begun Sample.hospital))) = Some true.
Proof.
  destruct (login_iff_credentials
              (Sample.press_login (u "admin ") (u "admin123"))
              (Sample.begun Sample.hospital)) as [H _].
  destruct H as [[_ H] _]; [simpl; discriminate|].
  apply H. repeat split.
Defined.

(** ** The edit form *)





(** ** Searching patients *)








(** ** Creating a patient *)

Lemma sample_hospital_well_formed : well_formed Sample.hospital.
Proof.
  split.
  - simpl. apply NoDup_cons; [simpl; intros [H | []]; discriminate|].
    apply NoDup_cons; [simpl; tauto | apply NoDup_nil].
  - intro ph. unfold with_phone, Sample.hospital, Sample.ann, Sample.bob.
    cbn [filter patients Patient.phone Sql.opt_eqb].
    destruct (Text.eqb (u "555") ph) eqn:E1; destruct (Text.eqb (u "777") ph) eqn:E2;
      simpl; try lia.
    apply eqb_eq in E1, E2. subst ph. discriminate.
Qed.

Lemma sample_create_submission fn ln ph g blood d :
  create_submission (Sample.press_create fn ln ph g blood) (Sample.logged d).
Proof. repeat split. Qed.

(** C2.  When the store (kept unique on phone by SQLite) has a patient with
    phone [p], pressing Create Patient with all required fields filled and
    the same phone is rejected by the store with its uniqueness error, which
    the page shows; the store is unchanged and exactly one row with phone
    [p] exists afterward. *)
Theorem duplicate_phone_rejected (i : inputs) (w : world) :
  create_submission i w ->
  well_formed (store w) ->
  in_fn i <> [] -> in_ln i <> [] -> in_ph i <> [] ->
  with_phone (in_ph i) (store w) <> [] ->
  Sql.exec (submitted i) (clock w) (store w) = inl UniqueFailed /\
  In (Error (u "Database error: " ++ error_text UniqueFailed)) (out (snd (run i w))) /\
  store (snd (run i w)) = store w /\
  List.length (with_phone (in_ph i) (store (snd (run i w)))) = 1%nat.
Proof.
  intros Hs [_ Hu] H1 H2 H3 Hp.
  destruct (run_reaches_add_new i w Hs) as (w1 & -> & Hst & Hck & _).
  pose proof (insert_taken i (clock w1) (store w) Hp) as Ex. rewrite <- Hst in Ex.
  destruct Hs as (_ & _ & Hc).
  rewrite (create_failed i w1 UniqueFailed Hc H1 H2 H3 Ex). simpl.
  repeat split.
  - rewrite <- Hck, <- Hst at 1. rewrite Hst in Ex. now rewrite Hst.
  - apply in_or_app. right. right. now left.
  - exact Hst.
  - rewrite Hst. specialize (Hu (in_ph i)).
    destruct (with_phone (in_ph i) (store w)) as [|r [|r' l]]; simpl in *;
      [congruence | reflexivity | lia].
Qed.

Lemma duplicate_phone_rejected_witness :
  List.length
    (with_phone (u "555")
       (store (snd (run (Sample.press_create (u "Eve") (u "Fox") (u "555") 2 1)
                        (Sample.logged Sample.hospital))))) = 1%nat.
Proof.
  apply (@duplicate_phone_rejected
           (Sample.press_create (u "Eve") (u "Fox") (u "555") 2 1)
           (Sample.logged Sample.hospital)).
  - apply sample_create_submission.
  - apply sample_hospital_well_formed.
  - discriminate.
  - discriminate.
  - discriminate.
  - vm_compute. discriminate.
Defined.

(** C4.  Pressing Create Patient with an empty first name, last name or
    phone shows the required-fields warning and reports no success; the
    only statement the run hands to the store is the query of the list tab,
    which changes no row; the store and the patient count are as they
    were. *)
Theorem blank_required_field_rejected (i : inputs) (w : world) :
  create_submission i w ->
  in_fn i = [] \/ in_ln i = [] \/ in_ph i = [] ->
  fst (run i w) = Ret tt /\
  In (Warning (u "Required fields missing")) (out (snd (run i w))) /\
  (forall s, ~ In (Success s) (out (snd (run i w)))) /\
  statements (snd (run i w)) = [search_stmt (in_search i)] /\
  Sql.mutating (search_stmt (in_search i)) = false /\
  store (snd (run i w)) = store w /\
  patient_count (store (snd (run i w))) = patient_count (store w).
Proof.
  intros Hs Hb.
  destruct (run_reaches_add_new i w Hs) as (w1 & -> & Hst & _ & Hq & He).
  destruct Hs as (_ & _ & Hc). rewrite (create_blank i w1 Hc Hb). simpl.
  repeat split.
  - apply in_or_app. right. now left.
  - intros s H. apply in_app_or in H as [H | [H | []]]; [|discriminate].
    destruct (He _ H) as [Hn _]. now elim (Hn s).
  - unfold statements in *. simpl. rewrite flat_map_app, Hq. reflexivity.
  - unfold search_stmt. now destruct (truthy (in_search i)).
  - exact Hst.
  - now rewrite Hst.
Qed.

Lemma blank_required_field_rejected_witness :
  patient_count
    (store (snd (run (Sample.press_create [] (u "Fox") (u "888") 2 1)
                     (Sample.logged Sample.hospital))))
  = patient_count (store (Sample.logged Sample.hospital)).
Proof.
  apply (@blank_required_field_rejected
           (Sample.press_create [] (u "Fox") (u "888") 2 1)
           (Sample.logged Sample.hospital)).
  - apply sample_create_submission.
  - left. reflexivity.
Defined.




(** ** Errors of the store *)

Lemma run_query_returns (q : stmt) (fetch_df commit : bool) (w : world) :
  exists r, fst (run_query q fetch_df commit w) = Ret r /\
            open_conns (snd (run_query q fetch_df commit w)) = open_conns w.
Proof.
  unfold run_query, bind, get_db, emit, conn_close, ret.
  cbn [logged_in store open_conns clock out fst snd pred].
  destruct (Sql.exec q (clock w) (store w)) as [e | [fr d']].
  - eexists. split; reflexivity.
  - destruct fetch_df; [destruct fr|destruct commit]; eexists; split; reflexivity.
Qed.

(** C10.  [run_query] never lets an exception of the store out: it always
    returns, with the connection closed.  When the statement fails it
    reports the error, leaves the store as it was and returns [None]; a
    statement run without fetching returns [None] as well, failed or not.
    So on the create path a failed INSERT is followed by the success message
    and the rerun all the same. *)
Theorem run_query_hides_failure :
  (forall q fetch_df commit w,
     exists r, fst (run_query q fetch_df commit w) = Ret r /\
               open_conns (snd (run_query q fetch_df commit w)) = open_conns w) /\
  (forall q fetch_df commit w e,
     Sql.exec q (clock w) (store w) = inl e ->
     fst (run_query q fetch_df commit w) = Ret None /\
     store (snd (run_query q fetch_df commit w)) = store w /\
     In (Error (u "Database error: " ++ error_text e))
        (out (snd (run_query q fetch_df commit w)))) /\
  (forall q commit w, fst (run_query q false commit w) = Ret None) /\
  (forall i w e,
     create_submission i w ->
     in_fn i <> [] -> in_ln i <> [] -> in_ph i <> [] ->
     Sql.exec (submitted i) (clock w) (store w) = inl e ->
     fst (run i w) = Rerun /\
     In (Error (u "Database error: " ++ error_text e)) (out (snd (run i w))) /\
     In (Success (u "Patient created!")) (out (snd (run i w))) /\
     store (snd (run i w)) = store w).
Proof.
  split; [exact run_query_returns|]. split; [|split].
  - intros q fetch_df commit w e Ex.
    rewrite (run_query_failed q fetch_df commit w e Ex). simpl.
    repeat split. apply in_or_app. right. right. now left.
  - intros q commit w.
    destruct (Sql.exec q (clock w) (store w)) as [e | [fr d']] eqn:Ex.
    + now rewrite (run_query_failed q false commit w e Ex).
    + now rewrite (run_query_executed q commit w fr d' Ex).
  - intros i w e Hs H1 H2 H3 Ex.
    destruct (run_reaches_add_new i w Hs) as (w1 & -> & Hst & Hck & _).
    rewrite <- Hst, <- Hck in Ex. destruct Hs as (_ & _ & Hc).
    rewrite (create_failed i w1 e Hc H1 H2 H3 Ex). simpl.
    repeat split; try exact Hst; apply in_or_app; right; simpl; tauto.
Qed.

Lemma run_query_hides_failure_witness :
  fst (run (Sample.press_create (u "Eve") (u "Fox") (u "555") 2 1)
           (Sample.logged Sample.hospital)) = Rerun /\
  In (Success (u "Patient created!"))
     (out (snd (run (Sample.press_create (u "Eve") (u "Fox") (u "555") 2 1)
                    (Sample.logged Sample.hospital)))).
Proof.
  destruct run_query_hides_failure as (_ & _ & _ & H).
  destruct (H (Sample.press_create (u "Eve") (u "Fox") (u "555") 2 1)
              (Sample.logged Sample.hospital) UniqueFailed)
    as (Hr & _ & Hs & _).
  - apply sample_create_submission.
  - discriminate.
  - discriminate.
  - discriminate.
  - reflexivity.
  - split; [exact Hr | exact Hs].
Defined.

(** * More of the script *)

(** ** Rules that tell the exits apart *)

Section WalkRules.
Variables (P : world -> Prop) (E : exit -> world -> Prop).
Hypothesis P_emit : forall e w, not_sql e -> P w -> P (rendered [e] w).
Hypothesis P_flag :
  forall b w, P w -> P (mkWorld (Some b) (store w) (open_conns w) (clock w) (out w)).
Hypothesis P_exit : forall x w, P w -> E x w.

Lemma walks_ret A (a : A) : walks P E (ret a).
Proof. intros w H. exact H. Qed.

Lemma walks_rerun A : walks P E (@rerun A).
Proof. intros w H. simpl. now apply P_exit. Qed.

Lemma walks_stop A : walks P E (@stop A).
Proof. intros w H. simpl. now apply P_exit. Qed.

Lemma walks_raise A (e : exn) : walks P E (@raise A e).
Proof. intros w H. simpl. now apply P_exit. Qed.

Lemma walks_lift A (r : exn + A) : walks P E (lift r).
Proof. destruct r; [apply walks_raise | apply walks_ret]. Qed.

Lemma walks_bind A B (m : Script A) (k : A -> Script B) :
  walks P E m -> (forall a, walks P E (k a)) -> walks P E (bind m k).
Proof.
  intros Hm Hk w H. specialize (Hm w H). unfold bind.
  destruct (m w) as [[a| | |e] w']; simpl in *; try exact Hm.
  now apply Hk.
Qed.

Lemma walks_bind_val A B (m : Script A) (k : A -> Script B) (V : A -> Prop) :
  walks P E m -> (forall w a, fst (m w) = Ret a -> V a) ->
  (forall a, V a -> walks P E (k a)) -> walks P E (bind m k).
Proof.
  intros Hm HV Hk w H. specialize (Hm w H). specialize (HV w). unfold bind.
  destruct (m w) as [[a| | |e] w']; simpl in *; try exact Hm.
  apply Hk; [now apply HV | exact Hm].
Qed.

Lemma walks_emit (e : event) : not_sql e -> walks P E (emit e).
Proof. intros He w H. simpl. now apply (P_emit e w). Qed.

Lemma walks_get_logged_in : walks P E get_logged_in.
Proof.
  intros w H. unfold get_logged_in.
  destruct (logged_in w); simpl; [exact H | now apply P_exit].
Qed.

Lemma walks_set_logged_in (b : bool) : walks P E (set_logged_in b).
Proof. intros w H. simpl. now apply P_flag. Qed.

Lemma walks_init_session : walks P E init_session.
Proof.
  intros w H. unfold init_session.
  destruct (logged_in w); simpl; [exact H | now apply P_flag].
Qed.

Lemma walks_init_db : walks P E init_db.
Proof. intros [li d n now o] H. exact H. Qed.
End WalkRules.

(** Walks a script with the four kinds of statement it can meet: a read,
    and the INSERT, UPDATE and DELETE with the lines that follow them. *)
Ltac stroll reads insertion updating deletion :=
  repeat match goal with
    | |- walks _ _ (ret _) => apply walks_ret
    | |- walks _ _ rerun => apply walks_rerun; assumption
    | |- walks _ _ stop => apply walks_stop; assumption
    | |- walks _ _ (raise _) => apply walks_raise; assumption
    | |- walks _ _ (lift _) => apply walks_lift; assumption
    | |- walks _ _ (emit _) => apply walks_emit; [assumption | exact I]
    | |- walks _ _ (set_logged_in _) => apply walks_set_logged_in; assumption
    | |- walks _ _ get_logged_in => apply walks_get_logged_in; assumption
    | |- walks _ _ (bind (run_query (InsertPatient _ _ _ _ _) _ _) _) => apply insertion
    | |- walks _ _ (bind (run_query (UpdatePatient _ _ _ _ _ _) _ _) _) => apply updating
    | |- walks _ _ (bind (run_query (DeletePatient _) _ _) _) => apply deletion
    | |- walks _ _ (run_query _ _ _) => apply reads; [reflexivity | discriminate]
    | |- walks _ _ (bind _ _) => apply walks_bind; [| intros ?]
    | |- walks _ _ (if ?b then _ else _) => destruct b eqn:?
    | |- walks _ _ (match ?x with _ => _ end) => destruct x eqn:?
    end.

Section WalkScript.
Variables (P : world -> Prop) (E : exit -> world -> Prop) (i : inputs).
Hypothesis P_emit : forall e w, not_sql e -> P w -> P (rendered [e] w).
Hypothesis P_exit : forall x w, P w -> E x w.
Hypothesis reads :
  forall q fetch_df commit,
    Sql.mutating q = false -> (forall t, q <> SelectOrdered t) ->
    walks P E (run_query q fetch_df commit).
Hypothesis insertion :
  forall fn ln ph g blood,
    walks P E (run_query (InsertPatient fn ln ph g blood) false true ;;
               emit (Success (u "Patient created!")) ;; @rerun unit).
Hypothesis updating :
  forall fn ln ph g blood pid,
    walks P E (run_query (UpdatePatient fn ln ph g blood pid) false true ;;
               emit (Success (u "Updated!")) ;; @rerun unit).
Hypothesis deletion :
  forall pid,
    walks P E (run_query (DeletePatient pid) false true ;;
               emit (Success (u "Deleted!")) ;; @rerun unit).

Lemma walks_dashboard : walks P E dashboard.
Proof. unfold dashboard, count_of. stroll reads insertion updating deletion. Qed.

Lemma walks_list_and_search : walks P E (list_and_search i).
Proof.
  unfold list_and_search, search_stmt. cbv zeta.
  apply walks_bind; [|intros ?; stroll reads insertion updating deletion].
  apply reads; destruct (truthy (in_search i)); (reflexivity || discriminate).
Qed.

Lemma walks_add_new : walks P E (add_new i).
Proof. unfold add_new. cbv zeta. stroll reads insertion updating deletion. Qed.

Lemma walks_edit_form (pid : Z) (p : Patient.t) : walks P E (edit_form i pid p).
Proof. unfold edit_form. cbv zeta. stroll reads insertion updating deletion. Qed.

Lemma walks_edit_delete : walks P E (edit_delete i).
Proof.
  unfold edit_delete.
  apply walks_bind; [stroll reads insertion updating deletion | intros r].
  destruct r as [[]|]; try solve [stroll reads insertion updating deletion].
  destruct rows; [stroll reads insertion updating deletion|]. cbv zeta.
  apply walks_bind; [stroll reads insertion updating deletion | intros pid].
  apply walks_bind; [stroll reads insertion updating deletion | intros data].
  destruct data as [[]|]; try solve [stroll reads insertion updating deletion].
  destruct rows0; [stroll reads insertion updating deletion|].
  apply walks_edit_form.
Qed.

Lemma walks_patients_page : walks P E (patients_page i).
Proof.
  unfold patients_page. cbv zeta.
  apply walks_bind; [apply walks_list_and_search | intros _].
  destruct (Text.eqb _ _); [apply walks_add_new | apply walks_edit_delete].
Qed.

Lemma walks_placeholder (page : str) : walks P E (placeholder page).
Proof. unfold placeholder. stroll reads insertion updating deletion. Qed.

Lemma walks_main_area (page : str) :
  dispatch page <> BDoctorsStaff -> walks P E (main_area i page).
Proof.
  intro H. unfold main_area.
  apply walks_bind; [stroll reads insertion updating deletion | intros _].
  destruct (dispatch page); try contradiction.
  - apply walks_dashboard.
  - apply walks_patients_page.
  - apply walks_placeholder.
Qed.

Hypothesis P_flag :
  forall b w, P w -> P (mkWorld (Some b) (store w) (open_conns w) (clock w) (out w)).

Lemma walks_sidebar : walks P E (sidebar i).
Proof. unfold sidebar. stroll reads insertion updating deletion. Qed.

Lemma walks_login_screen : walks P E (login_screen i).
Proof. unfold login_screen. stroll reads insertion updating deletion. Qed.

Lemma walks_app : walks P E (app i).
Proof.
  unfold app.
  apply walks_bind; [now apply walks_init_db | intros _].
  apply walks_bind; [now apply walks_init_session | intros _].
  apply walks_bind_val with (V := fun page => dispatch page <> BDoctorsStaff).
  - apply walks_sidebar.
  - apply sidebar_page.
  - intros page Hp.
    apply walks_bind; [apply walks_login_screen | intros _].
    now apply walks_main_area.
Qed.
End WalkScript.

(** ** What every [run_query] leaves alone *)

Lemma run_query_world (q : stmt) (fetch_df commit : bool) (w : world) :
  statements (snd (run_query q fetch_df commit w)) = statements w ++ [q] /\
  logged_in (snd (run_query q fetch_df commit w)) = logged_in w /\
  open_conns (snd (run_query q fetch_df commit w)) = open_conns w /\
  clock (snd (run_query q fetch_df commit w)) = clock w /\
  exit_of (fst (run_query q fetch_df commit w)) = None.
Proof.
  destruct (Sql.exec q (clock w) (store w)) as [e | [fr d']] eqn:Ex.
  - rewrite (run_query_failed q fetch_df commit w e Ex). simpl.
    repeat split. stmts.
  - destruct fetch_df.
    + destruct fr as [f|].
      * rewrite (run_query_fetched q commit w f d' Ex). simpl. repeat split. stmts.
      * unfold run_query, bind, get_db, emit, conn_close, ret.
        cbn [logged_in store open_conns clock out fst snd pred]. rewrite Ex.
        simpl. repeat split. stmts.
    + rewrite (run_query_executed q commit w fr d' Ex).
      destruct commit; simpl; repeat split; stmts.
Qed.

Lemma exec_read (q : stmt) (now : str) (d d' : db) (fr : option frame) :
  Sql.mutating q = false -> Sql.exec q now d = inr (fr, d') -> d' = d.
Proof.
  destruct q as [[]| | | | | | | |[]]; simpl; intros Hm H;
    try discriminate; now injection H as _ <-.
Qed.

Lemma run_query_read (q : stmt) (fetch_df commit : bool) (w : world) :
  Sql.mutating q = false ->
  store (snd (run_query q fetch_df commit w)) = store w.
Proof.
  intro Hm. destruct (Sql.exec q (clock w) (store w)) as [e | [fr d']] eqn:Ex.
  - now rewrite (run_query_failed q fetch_df commit w e Ex).
  - destruct fetch_df.
    + destruct fr as [f|].
      * now rewrite (run_query_fetched q commit w f d' Ex).
      * unfold run_query, bind, get_db, emit, conn_close, ret.
        cbn [logged_in store open_conns clock out fst snd pred]. now rewrite Ex.
    + rewrite (run_query_executed q commit w fr d' Ex).
      destruct commit; [|reflexivity]. simpl. exact (exec_read q (clock w) (store w) d' fr Hm Ex).
Qed.

Lemma run_query_committed (q : stmt) (w : world) :
  applied q (clock w) (store w) (store (snd (run_query q false true w))).
Proof.
  unfold applied. destruct (Sql.exec q (clock w) (store w)) as [e | [fr d']] eqn:Ex.
  - now rewrite (run_query_failed q false true w e Ex).
  - now rewrite (run_query_executed q true w fr d' Ex).
Qed.

(** A statement, the success message and the rerun, as one step. *)
Lemma sequence_ends (q : stmt) (s : str) (w : world) :
  fst ((run_query q false true ;; emit (Success s) ;; @rerun unit) w) = Rerun /\
  snd ((run_query q false true ;; emit (Success s) ;; @rerun unit) w)
  = rendered [Success s] (snd (run_query q false true w)).
Proof.
  pose proof (run_query_world q false true w) as (_ & _ & _ & _ & Hx).
  unfold bind. destruct (run_query q false true w) as [[r| | |e] w'];
    simpl in Hx; try discriminate.
  split; reflexivity.
Qed.

(** ** The session flag, the connections and the clock *)

Lemma walks_steady_query li n now (q : stmt) (fetch_df commit : bool) :
  walks (steady li n now) (fun _ => steady li n now) (run_query q fetch_df commit).
Proof.
  intros w (H1 & H2 & H3).
  pose proof (run_query_world q fetch_df commit w) as (_ & E1 & E2 & E3 & Ex).
  rewrite Ex. unfold steady. now rewrite E1, E2, E3.
Qed.

Lemma walks_steady_sequence li n now (q : stmt) (s : str) :
  walks (steady li n now) (fun _ => steady li n now)
        (run_query q false true ;; emit (Success s) ;; @rerun unit).
Proof.
  intros w H. destruct (sequence_ends q s w) as [-> ->]. simpl.
  pose proof (walks_steady_query li n now q false true w H) as Hq.
  pose proof (run_query_world q false true w) as (_ & _ & _ & _ & Ex).
  rewrite Ex in Hq. exact Hq.
Qed.

Lemma main_area_steady (i : inputs) (page : str) (w : world) :
  dispatch page <> BDoctorsStaff ->
  steady (logged_in w) (open_conns w) (clock w) (snd (main_area i page w)).
Proof.
  intro Hp.
  pose proof (walks_main_area (steady (logged_in w) (open_conns w) (clock w))
                (fun _ => steady (logged_in w) (open_conns w) (clock w)) i) as H.
  specialize (H (fun e w' _ Hw => Hw) (fun _ w' Hw => Hw)).
  specialize (H (fun q f c _ _ => walks_steady_query _ _ _ q f c)).
  specialize (H (fun fn ln ph g b => walks_steady_sequence _ _ _ _ _)).
  specialize (H (fun fn ln ph g b pid => walks_steady_sequence _ _ _ _ _)).
  specialize (H (fun pid => walks_steady_sequence _ _ _ _ _)).
  specialize (H page Hp w (conj eq_refl (conj eq_refl eq_refl))).
  destruct (exit_of (fst (main_area i page w))); exact H.
Qed.

(** How a run that starts logged in goes on. *)
Lemma run_logged_in (i : inputs) (w : world) :
  logged_in w = Some true -> in_logout i = false ->
  run i w = main_area i (radio main_modules (in_page i)) (clear_out w) /\
  dispatch (radio main_modules (in_page i)) <> BDoctorsStaff.
Proof.
  intros Hl Hlo. split.
  - unfold run. now apply app_logged_in.
  - apply dispatch_main_modules, radio_main_modules.
Qed.

Lemma run_steady (i : inputs) (w : world) :
  open_conns (snd (run i w)) = open_conns w /\ clock (snd (run i w)) = clock w.
Proof.
  destruct (logged_in w) as [[|]|] eqn:Hl.
  - destruct (in_logout i) eqn:Hlo.
    + rewrite (run_logout i w Hl Hlo). split; reflexivity.
    + destruct (run_logged_in i w Hl Hlo) as [-> Hp].
      destruct (main_area_steady i _ (clear_out w) Hp) as (_ & H2 & H3).
      split; assumption.
  - rewrite run_logged_out by (rewrite Hl; discriminate). cbv zeta.
    destruct (in_login i); [destruct (credentials_ok _ _)|]; split; reflexivity.
  - rewrite run_logged_out by (rewrite Hl; discriminate). cbv zeta.
    destruct (in_login i); [destruct (credentials_ok _ _)|]; split; reflexivity.
Qed.

Lemma run_stays_logged_in (i : inputs) (w : world) :
  logged_in w = Some true -> in_logout i = false ->
  logged_in (snd (run i w)) = Some true.
Proof.
  intros Hl Hlo. destruct (run_logged_in i w Hl Hlo) as [-> Hp].
  destruct (main_area_steady i _ (clear_out w) Hp) as (H1 & _). now rewrite H1.
Qed.

(** ** One change per run *)

Lemma statements_rendered_event (e : event) (w : world) :
  not_sql e -> statements (rendered [e] w) = statements w.
Proof.
  intro He. unfold statements, rendered. simpl. rewrite flat_map_app. simpl.
  destruct e; simpl in He; try contradiction; now rewrite app_nil_r.
Qed.

Lemma unchanged_emit d0 now (e : event) (w : world) :
  not_sql e -> unchanged d0 now w -> unchanged d0 now (rendered [e] w).
Proof.
  intros He (H1 & H2 & H3). repeat split; try assumption.
  unfold only_reads. now rewrite statements_rendered_event.
Qed.

Lemma walks_unchanged_read d0 now (E : exit -> world -> Prop)
    (q : stmt) (fetch_df commit : bool) :
  Sql.mutating q = false ->
  walks (unchanged d0 now) E (run_query q fetch_df commit).
Proof.
  intros Hm w (H1 & H2 & H3).
  pose proof (run_query_world q fetch_df commit w) as (Es & _ & _ & Ec & Ex).
  rewrite Ex. repeat split.
  - now rewrite run_query_read.
  - now rewrite Ec.
  - unfold only_reads. rewrite Es. apply Forall_app. split; [exact H3|].
    now constructor.
Qed.

Lemma walks_unchanged_sequence d0 now (q : stmt) (s : str) :
  Sql.mutating q = true ->
  walks (unchanged d0 now)
        (fun x w => unchanged d0 now w \/ (x = ByRerun /\ one_change d0 now w))
        (run_query q false true ;; emit (Success s) ;; @rerun unit).
Proof.
  intros Hm w (H1 & H2 & H3). destruct (sequence_ends q s w) as [-> ->]. simpl.
  right. split; [reflexivity|].
  pose proof (run_query_world q false true w) as (Es & _ & _ & _ & _).
  exists (statements w), q. repeat split; try assumption.
  - rewrite statements_rendered_event by exact I. exact Es.
  - simpl. rewrite <- H1, <- H2. apply run_query_committed.
Qed.

(** A run leaves the store as it was and only reads; or it ends in a rerun
    after a single INSERT, UPDATE or DELETE, its last statement. *)
Lemma run_effect (i : inputs) (w : world) :
  unchanged (store w) (clock w) (snd (run i w)) \/
  (fst (run i w) = Rerun /\ one_change (store w) (clock w) (snd (run i w))).
Proof.
  pose proof (walks_app (unchanged (store w) (clock w))
                (fun x w' => unchanged (store w) (clock w) w' \/
                             (x = ByRerun /\ one_change (store w) (clock w) w')) i) as H.
  specialize (H (unchanged_emit _ _) (fun _ _ Hw => or_introl Hw)).
  specialize (H (fun q f c Hm _ => walks_unchanged_read _ _ _ q f c Hm)).
  specialize (H (fun fn ln ph g b =>
                   walks_unchanged_sequence _ _ (InsertPatient fn ln ph g b) _ eq_refl)).
  specialize (H (fun fn ln ph g b pid =>
                   walks_unchanged_sequence _ _ (UpdatePatient fn ln ph g b pid) _ eq_refl)).
  specialize (H (fun pid => walks_unchanged_sequence _ _ (DeletePatient pid) _ eq_refl)).
  specialize (H (fun b w' Hw => Hw) (clear_out w)).
  unfold run. destruct (app i (clear_out w)) as [[[]| | |e] w']; simpl in *.
  - left. apply H. repeat split. constructor.
  - destruct H as [H | [_ H]]; [repeat split; constructor| now left | right; now split].
  - destruct H as [H | [Hx _]]; [repeat split; constructor| now left | discriminate].
  - destruct H as [H | [Hx _]]; [repeat split; constructor| now left | discriminate].
Qed.

(** ** What one statement does to the patients table *)

Lemma opt_eqb_eq (a : option str) (b : str) :
  Sql.opt_eqb a (Some b) = true <-> a = Some b.
Proof.
  destruct a as [x|]; simpl.
  - rewrite eqb_eq. split; congruence.
  - split; discriminate.
Qed.

Lemma id_apply_update fn ln ph g blood pid (r : Patient.t) :
  Patient.id (Sql.apply_update fn ln ph g blood pid r) = Patient.id r.
Proof. unfold Sql.apply_update. now destruct (Sql.has_id pid r). Qed.

Lemma find_map_update fn ln ph g blood pid pid' (rows : list Patient.t) :
  find (Sql.has_id pid') (map (Sql.apply_update fn ln ph g blood pid) rows)
  = option_map (Sql.apply_update fn ln ph g blood pid) (find (Sql.has_id pid') rows).
Proof.
  induction rows as [|r rows IH]; simpl; [reflexivity|].
  rewrite has_id_apply_update. now destruct (Sql.has_id pid' r).
Qed.

Lemma find_filter (A : Type) (f g : A -> bool) (l : list A) :
  (forall x, f x = true -> g x = true) -> find f (filter g l) = find f l.
Proof.
  intro H. induction l as [|x l IH]; simpl; [reflexivity|].
  destruct (g x) eqn:Eg; simpl.
  - now rewrite IH.
  - destruct (f x) eqn:Ef; [|exact IH]. apply H in Ef. congruence.
Qed.

Lemma has_id_other (pid pid' : Z) (r : Patient.t) :
  pid' <> pid -> Sql.has_id pid' r = true -> negb (Sql.has_id pid r) = true.
Proof.
  unfold Sql.has_id. intros Hn H. apply Z.eqb_eq in H.
  apply negb_true_iff, Z.eqb_neq. congruence.
Qed.




(** The columns nothing writes: a row found after a statement is a row
    found before it with the same id, date of birth and creation time, or
    it is the row just inserted, without a date of birth. *)
Lemma exec_origin (q : stmt) (now : str) (d d' : db) (fr : option frame)
    (pid : Z) (p' : Patient.t) :
  Sql.exec q now d = inr (fr, d') ->
  get d' pid = Some p' ->
  (exists p, get d pid = Some p /\ same_origin p p') \/
  (get d pid = None /\ Patient.dob p' = None /\ Patient.created_at p' = Some now).
Proof.
  intros Ex Hg.
  assert (Hsame : get d pid = Some p' ->
                  exists p, get d pid = Some p /\ same_origin p p')
    by (intro H; exists p'; repeat split; exact H).
  destruct q as [[]| | | | | | | |[]]; simpl in Ex;
    try (injection Ex as _ <-; left; now apply Hsame); try discriminate.
  - destruct (Sql.phone_taken _ _ _); [discriminate|]. injection Ex as _ <-.
    unfold get in *. simpl in Hg.
    destruct (find (Sql.has_id pid) (patients d)) as [p|] eqn:E.
    + left. exists p. split; [reflexivity|].
      assert (Hp : find (Sql.has_id pid) (patients d ++
                     [Patient.mk (Sql.next_id d) fn ln (Some ph) (Some g) None
                                 (Some blood) (Some now)]) = Some p).
      { clear Hg Hsame. induction (patients d) as [|x l IH]; simpl in *; [discriminate|].
        destruct (Sql.has_id pid x); [exact E | now apply IH]. }
      rewrite Hp in Hg. injection Hg as <-. repeat split.
    + right. split; [reflexivity|].
      assert (Hp : forall x, find (Sql.has_id pid) (patients d ++ [x]) = Some p' -> p' = x).
      { clear Hg Hsame. intros x. induction (patients d) as [|y l IH]; simpl in *.
        - destruct (Sql.has_id pid x); congruence.
        - destruct (Sql.has_id pid y); [discriminate | now apply IH]. }
      apply Hp in Hg. subst p'. split; reflexivity.
  - destruct (_ && _); [discriminate|]. injection Ex as _ <-.
    unfold get in *. simpl in Hg. rewrite find_map_update in Hg.
    destruct (find (Sql.has_id pid) (patients d)) as [p|]; [|discriminate].
    left. exists p. split; [reflexivity|]. simpl in Hg. injection Hg as <-.
    unfold same_origin, Sql.apply_update. destruct (Sql.has_id pid0 p); repeat split.
  - injection Ex as _ <-. unfold get in *. simpl in Hg. left. apply Hsame.
    rewrite <- Hg. symmetry. apply find_filter. intros r Hr.
    apply has_id_other with (pid' := pid); [|exact Hr].
    intros ->. now rewrite find_after_delete in Hg.
Qed.

(** *** The constraints of the table *)

Lemma length_filter_le (A : Type) (f g : A -> bool) (l : list A) :
  (forall x, In x l -> f x = true -> g x = true) ->
  (List.length (filter f l) <= List.length (filter g l))%nat.
Proof.
  induction l as [|x l IH]; simpl; intro H; [lia|].
  assert (IH' : (List.length (filter f l) <= List.length (filter g l))%nat)
    by (apply IH; intros y Hy; apply H; now right).
  destruct (f x) eqn:Ef.
  - rewrite (H x (or_introl eq_refl) Ef). simpl. lia.
  - destruct (g x); simpl; lia.
Qed.

Lemma filter_map_length (A : Type) (f : A -> bool) (h : A -> A) (l : list A) :
  List.length (filter f (map h l)) = List.length (filter (fun x => f (h x)) l).
Proof.
  induction l as [|x l IH]; simpl; [reflexivity|].
  destruct (f (h x)); simpl; now rewrite IH.
Qed.

Lemma one_row_per_id (pid : Z) (rows : list Patient.t) :
  NoDup (map Patient.id rows) ->
  (List.length (filter (Sql.has_id pid) rows) <= 1)%nat.
Proof.
  induction rows as [|r rows IH]; simpl; intro H; [lia|].
  apply NoDup_cons_iff in H as [Hn H]. specialize (IH H).
  destruct (Sql.has_id pid r) eqn:E; [|exact IH]. simpl.
  assert (Hnone : filter (Sql.has_id pid) rows = []).
  { destruct (filter (Sql.has_id pid) rows) as [|x l] eqn:Ef; [reflexivity|].
    assert (Hx : In x (filter (Sql.has_id pid) rows)) by (rewrite Ef; now left).
    apply filter_In in Hx as [Hin Hx].
    unfold Sql.has_id in E, Hx. apply Z.eqb_eq in E, Hx.
    elim Hn. rewrite E, <- Hx. now apply in_map. }
  rewrite Hnone. simpl. lia.
Qed.

Lemma NoDup_ids_filter (g : Patient.t -> bool) (rows : list Patient.t) :
  NoDup (map Patient.id rows) -> NoDup (map Patient.id (filter g rows)).
Proof.
  induction rows as [|r rows IH]; simpl; intro H; [constructor|].
  apply NoDup_cons_iff in H as [Hn H]. destruct (g r); simpl; [|now apply IH].
  constructor; [|now apply IH]. intro Hin. apply Hn.
  apply in_map_iff in Hin as (x & Hx & Hin). apply filter_In in Hin as [Hin _].
  rewrite <- Hx. now apply in_map.
Qed.

Lemma update_identity fn ln ph g blood pid (rows : list Patient.t) :
  existsb (Sql.has_id pid) rows = false ->
  map (Sql.apply_update fn ln ph g blood pid) rows = rows.
Proof.
  induction rows as [|r rows IH]; simpl; [reflexivity|].
  rewrite orb_false_iff. intros [Hr H]. rewrite (IH H).
  unfold Sql.apply_update. now rewrite Hr.
Qed.

Lemma phone_after_update fn ln ph g blood pid (r : Patient.t) :
  Patient.phone (Sql.apply_update fn ln ph g blood pid r)
  = if Sql.has_id pid r then ph else Patient.phone r.
Proof. unfold Sql.apply_update. now destruct (Sql.has_id pid r). Qed.

(** Every statement keeps ids distinct and phones distinct. *)
Lemma exec_well_formed (q : stmt) (now : str) (d d' : db) (fr : option frame) :
  Sql.exec q now d = inr (fr, d') -> well_formed d -> well_formed d'.
Proof.
  intros Ex [Hid Hph].
  destruct q as [[]| | | | | | | |[]]; simpl in Ex;
    try (injection Ex as _ <-; now split); try discriminate.
  - (* INSERT *)
    destruct (Sql.phone_taken _ _ _) eqn:Et; [discriminate|]. injection Ex as _ <-.
    apply phone_taken_with_phone in Et. split; simpl.
    + rewrite map_app. simpl. apply NoDup_app; [exact Hid | repeat constructor; auto |].
      intros x Hx [<- | []].
      apply in_map_iff in Hx as (r & Hr & Hin). apply id_le_max_id in Hin.
      unfold Sql.next_id in Hr. lia.
    + intro ph'. unfold with_phone in *. simpl. rewrite filter_app, length_app. simpl.
      destruct (Text.eqb ph ph') eqn:E; simpl.
      * apply eqb_eq in E. subst ph'. rewrite Et. simpl. lia.
      * specialize (Hph ph'). lia.
  - (* UPDATE *)
    destruct (existsb (Sql.has_id pid) (patients d)) eqn:Ee; simpl in Ex.
    + destruct (Sql.phone_taken ph (Some pid) (patients d)) eqn:Et; [discriminate|].
      injection Ex as _ <-. split; simpl.
      * rewrite map_map. erewrite map_ext; [exact Hid|].
        intro r. apply id_apply_update.
      * intro ph'. unfold with_phone. simpl. rewrite filter_map_length.
        unfold Sql.phone_taken in Et.
        assert (Hfree : forall r, In r (patients d) ->
                  Sql.opt_eqb (Patient.phone r) ph = true -> Sql.has_id pid r = true).
        { intros r Hin Hr. destruct (Sql.has_id pid r) eqn:Er; [reflexivity|].
          assert (Hex : existsb (fun r0 => Sql.opt_eqb (Patient.phone r0) ph
                                           && negb (Sql.has_id pid r0)) (patients d) = true).
          { apply existsb_exists. exists r. split; [exact Hin|]. now rewrite Hr, Er. }
          congruence. }
        destruct (Sql.opt_eqb ph (Some ph')) eqn:Em.
        -- apply opt_eqb_eq in Em. subst ph.
           eapply Nat.le_trans; [|apply (one_row_per_id pid _ Hid)].
           apply length_filter_le. intros r Hin Hr.
           rewrite phone_after_update in Hr.
           destruct (Sql.has_id pid r) eqn:Er; [reflexivity|].
           rewrite <- Er. now apply Hfree.
        -- eapply Nat.le_trans; [|apply (Hph ph')]. unfold with_phone.
           apply length_filter_le. intros r Hin Hr.
           rewrite phone_after_update in Hr.
           destruct (Sql.has_id pid r); [congruence | exact Hr].
    + injection Ex as _ <-. rewrite update_identity by exact Ee.
      split; simpl; [exact Hid | exact Hph].
  - (* DELETE *)
    injection Ex as _ <-. split; simpl.
    + now apply NoDup_ids_filter.
    + intro ph'. eapply Nat.le_trans; [|apply (Hph ph')]. unfold with_phone. simpl.
      remember (fun r => Sql.opt_eqb (Patient.phone r) (Some ph')) as f.
      clear. induction (patients d) as [|r rows IH]; simpl; [lia|].
      destruct (negb (Sql.has_id pid r)); simpl; destruct (f r); simpl; lia.
Qed.

Lemma applied_well_formed (q : stmt) (now : str) (d d' : db) :
  applied q now d d' -> well_formed d -> well_formed d'.
Proof.
  unfold applied. destruct (Sql.exec q now d) as [e | [fr d1]] eqn:Ex.
  - now intros ->.
  - intros ->. now apply (exec_well_formed q now d d1 fr).
Qed.

(** ** The path to the edit form *)


Lemma patients_page_edit (i : inputs) (w : world) :
  radio actions (in_mode i) = u "Edit / Delete" ->
  patients_page i w = (list_and_search i ;; edit_delete i) w.
Proof.
  intro Hm. unfold patients_page. cbv zeta. rewrite Hm.
  change (Text.eqb (u "Edit / Delete") (u "Add New")) with false. reflexivity.
Qed.

Lemma run_reaches_edit_delete (i : inputs) (w : world) :
  editing i w ->
  exists w1, run i w = edit_delete i w1 /\
             store w1 = store w /\ clock w1 = clock w /\ only_listed i w1.
Proof.
  intros ((Hl & Hlo & Hp) & Hm).
  destruct (list_and_search_returns i
              (rendered [Title (u "MedCare Hospital " ++ [8594%N] ++ u " "
                                  ++ u "Patients (full CRUD)")] (clear_out w)))
    as (e & He & Hs & Hw & Her & Hls).
  eexists. split; [|split; [|split]].
  - unfold run. rewrite app_logged_in by assumption.
    rewrite Hp, main_area_patients, patients_page_edit by assumption.
    rewrite (@bind_returns _ _ _ _ _ _ _ Hls). reflexivity.
  - reflexivity.
  - reflexivity.
  - split.
    + unfold statements, rendered. simpl.
      destruct e; simpl in He; try contradiction; reflexivity.
    + intros e' He'. simpl in He'.
      destruct He' as [<- | [<- | [<- | []]]]; repeat split; try discriminate; auto.
Qed.


(** The form with no patients, with a label that names no row, and with a
    label that names one. *)
Lemma edit_delete_none (i : inputs) (w : world) :
  patients (store w) = [] ->
  edit_delete i w = (Ret tt, rendered [Sql SelectLabels; Info (u "No patients yet")] w).
Proof.
  intro H. unfold edit_delete.
  assert (Ex : Sql.exec SelectLabels (clock w) (store w)
               = inr (Some (FLabels []), store w)) by (simpl; now rewrite H).
  rewrite (@bind_returns _ _ _ _ _ _ _ (run_query_fetched _ false w _ _ Ex)).
  unfold emit, rendered. simpl. now rewrite <- app_assoc.
Qed.

Lemma edit_delete_unresolved (i : inputs) (w : world) (e : exn) :
  patients (store w) <> [] ->
  chosen_id i (store w) = inl e ->
  edit_delete i w = (Raise e, rendered [Sql SelectLabels] w).
Proof.
  intros Hne Hc. unfold edit_delete.
  assert (Ex : Sql.exec SelectLabels (clock w) (store w)
               = inr (Some (FLabels (label_rows (store w))), store w)) by reflexivity.
  rewrite (@bind_returns _ _ _ _ _ _ _ (run_query_fetched _ false w _ _ Ex)).
  unfold chosen_id in Hc.
  destruct (label_rows (store w)) as [|row rows'] eqn:El.
  - unfold label_rows in El. apply map_eq_nil in El. contradiction.
  - cbv zeta. unfold bind. rewrite Hc. reflexivity.
Qed.


(** The id the form works on is the id of a stored row. *)
Lemma chosen_id_stored (i : inputs) (d : db) (pid : Z) :
  chosen_id i d = inr pid -> exists p, get d pid = Some p.
Proof.
  unfold chosen_id, id_of_choice.
  destruct (find _ (label_rows d)) as [row|] eqn:E; [|discriminate].
  intro H. injection H as <-. apply find_some in E as [Hin _].
  unfold label_rows in Hin. apply in_map_iff in Hin as (r & <- & Hin). simpl.
  unfold get. destruct (find (Sql.has_id (Patient.id r)) (patients d)) as [p|] eqn:Ef;
    [eauto|].
  apply (find_none _ _ Ef) in Hin. unfold Sql.has_id in Hin.
  now rewrite Z.eqb_refl in Hin.
Qed.



Lemma edit_form_deletes (i : inputs) (pid : Z) (p : Patient.t) (w : world) (gi : nat) :
  edit_gender_index p = inr gi ->
  in_update i = false -> in_delete i = true -> in_confirm i = true ->
  edit_form i pid p w
  = (Rerun, rendered [Success (u "Deleted!")]
                     (snd (run_query (DeletePatient pid) false true w))).
Proof.
  intros Hg Hu Hd Hc.
  destruct (sequence_ends (DeletePatient pid) (u "Deleted!") w) as [H1 H2].
  rewrite <- H2, <- H1, <- surjective_pairing.
  unfold edit_form. cbv zeta. unfold bind at 1. rewrite Hg.
  cbn [lift ret]. rewrite Hu, Hd, Hc. reflexivity.
Qed.

Lemma edit_form_idle (i : inputs) (pid : Z) (p : Patient.t) (w : world) (gi : nat) :
  edit_gender_index p = inr gi ->
  in_update i = false -> in_delete i = false \/ in_confirm i = false ->
  edit_form i pid p w = (Ret tt, w).
Proof.
  intros Hg Hu Hd. unfold edit_form. cbv zeta. unfold bind at 1. rewrite Hg.
  cbn [lift ret]. rewrite Hu. unfold bind. cbn [ret].
  destruct (in_delete i); [|reflexivity].
  destruct (in_confirm i); [|reflexivity]. destruct Hd; discriminate.
Qed.

(** * Further properties of the script *)

(** ** Sessions *)



(** X2.  Every connection a run opens is closed when the run ends, however
    it ends: the number of open connections after a run is the number
    before it. *)
Theorem run_releases_connections (i : inputs) (w : world) :
  open_conns (snd (run i w)) = open_conns w.
Proof. apply run_steady. Qed.

(** X3.  A logged-in session stays logged in through every run in which
    Logout is not pressed, whichever module is shown and however the run
    ends. *)
Theorem session_stays_logged_in (i : inputs) (w : world) :
  logged_in w = Some true -> in_logout i = false ->
  logged_in (snd (run i w)) = Some true.
Proof. apply run_stays_logged_in. Qed.

Lemma session_stays_logged_in_witness :
  logged_in (snd (run (Sample.press_delete 0 true) (Sample.logged Sample.hospital)))
  = Some true.
Proof.
  apply (session_stays_logged_in (Sample.press_delete 0 true)
                                 (Sample.logged Sample.hospital));
    reflexivity.
Defined.

(** ** What a run does to the store *)

(** X4.  A run either leaves the store as it was, having handed only reads
    to the database; or it ends in a rerun after handing it exactly one
    INSERT, UPDATE or DELETE, as its last statement, and the store is what
    that statement made of the store before the run (the same store if the
    statement failed). *)
Theorem run_changes_once (i : inputs) (w : world) :
  (store (snd (run i w)) = store w /\ only_reads (snd (run i w))) \/
  (fst (run i w) = Rerun /\ one_change (store w) (clock w) (snd (run i w))).
Proof.
  destruct (run_effect i w) as [(H1 & _ & H3) | H]; [left; now split | now right].
Qed.

(** X5.  Every run keeps the constraints of the patients table: if ids are
    distinct and phones that are not NULL are distinct before the run, they
    are after it. *)
Theorem run_keeps_constraints (i : inputs) (w : world) :
  well_formed (store w) -> well_formed (store (snd (run i w))).
Proof.
  intro H. destruct (run_effect i w) as [(H1 & _) | (_ & pre & q & _ & _ & _ & Ha)].
  - now rewrite H1.
  - now apply (applied_well_formed q (clock w) (store w)).
Qed.

Lemma run_keeps_constraints_witness :
  well_formed
    (store (snd (run (Sample.press_create (u "Eve") (u "Fox") (u "888") 2 1)
                     (Sample.logged Sample.hospital)))).
Proof.
  apply (run_keeps_constraints
           (Sample.press_create (u "Eve") (u "Fox") (u "888") 2 1)
           (Sample.logged Sample.hospital)).
  apply sample_hospital_well_formed.
Defined.

(** X6.  No run rewrites an id, a date of birth or a creation time: a row
    found after a run is a row found before it under the same id, with the
    same date of birth and creation time, or it is new, with no date of
    birth and the time of the run as its creation time. *)
Theorem run_keeps_origin (i : inputs) (w : world) (pid : Z) (p' : Patient.t) :
  get (store (snd (run i w))) pid = Some p' ->
  (exists p, get (store w) pid = Some p /\ same_origin p p') \/
  (get (store w) pid = None /\
   Patient.dob p' = None /\ Patient.created_at p' = Some (clock w)).
Proof.
  intro Hg.
  assert (Hsame : get (store w) pid = Some p' ->
                  exists p, get (store w) pid = Some p /\ same_origin p p')
    by (intro H; exists p'; repeat split; exact H).
  destruct (run_effect i w) as [(H1 & _) | (_ & pre & q & _ & _ & _ & Ha)].
  - left. apply Hsame. now rewrite <- H1.
  - unfold applied in Ha.
    destruct (Sql.exec q (clock w) (store w)) as [e | [fr d1]] eqn:Ex.
    + left. apply Hsame. now rewrite <- Ha.
    + subst d1. exact (exec_origin q (clock w) (store w) _ fr pid p' Ex Hg).
Qed.

Lemma run_keeps_origin_witness :
  (exists p, get (store (Sample.logged Sample.hospital)) 1 = Some p /\
             same_origin p Sample.ann) \/
  (get (store (Sample.logged Sample.hospital)) 1 = None /\
   Patient.dob Sample.ann = None /\
   Patient.created_at Sample.ann = Some (clock (Sample.logged Sample.hospital))).
Proof.
  apply (run_keeps_origin (Sample.press_create (u "Eve") (u "Fox") (u "888") 2 1)
                          (Sample.logged Sample.hospital) 1%Z Sample.ann).
  reflexivity.
Defined.



(** ** The edit form *)













(** ** Rows the edit form cannot open *)








Lemma find_never (A : Type) (f : A -> bool) (l : list A) :
  (forall x, f x = false) -> find f l = None.
Proof.
  intro H. induction l as [|x l IH]; simpl; [reflexivity|]. now rewrite H.
Qed.

Lemma chosen_label (i : inputs) (d : db) (p : Patient.t) :
  nth_error (patients d) (in_patient i) = Some p ->
  selectbox None (map snd (label_rows d)) 0 (Some (in_patient i)) = Sql.label p.
Proof.
  intro H. unfold selectbox, label_rows. rewrite map_map. simpl.
  apply nth_error_nth. now apply map_nth_error.
Qed.

(** X13.  Selecting a patient whose phone is NULL in the edit form raises
    IndexError: the label of such a row is NULL and matches no row, so the
    form never loads it, and the store is as it was. *)
Theorem null_phone_selection_raises (i : inputs) (w : world) (p : Patient.t) :
  editing i w ->
  nth_error (patients (store w)) (in_patient i) = Some p ->
  Patient.phone p = None ->
  fst (run i w) = Raise IndexError /\
  store (snd (run i w)) = store w /\
  statements (snd (run i w)) = [search_stmt (in_search i); SelectLabels].
Proof.
  intros He Hn Hph.
  destruct (run_reaches_edit_delete i w He) as (w1 & -> & Hst & _ & Hs & _).
  rewrite <- Hst in Hn.
  assert (Hc : chosen_id i (store w1) = inl IndexError).
  { unfold chosen_id. rewrite (chosen_label i (store w1) p Hn).
    unfold Sql.label, Sql.concat_opt. rewrite Hph. unfold id_of_choice.
    rewrite find_never; [reflexivity|]. intros [k [l|]]; reflexivity. }
  rewrite (edit_delete_unresolved i w1 IndexError); [|now destruct (patients (store w1)); [destruct (in_patient i)|] | exact Hc].
  simpl. repeat split; [exact Hst|].
  unfold statements in *. simpl. rewrite flat_map_app, Hs. reflexivity.
Qed.

Lemma null_phone_selection_raises_witness :
  fst (run (Cases.open_form 1) (Sample.logged Cases.clinic)) = Raise IndexError.
Proof.
  refine (proj1 (null_phone_selection_raises (Cases.open_form 1)
                   (Sample.logged Cases.clinic) Cases.zoe _ _ _));
    try reflexivity.
  repeat split.
Defined.

(** ** Which row the edit form loads *)

Lemma find_map (A B : Type) (f : B -> bool) (h : A -> B) (l : list A) :
  find f (map h l) = option_map h (find (fun x => f (h x)) l).
Proof.
  induction l as [|x l IH]; simpl; [reflexivity|]. now destruct (f (h x)).
Qed.

Lemma NoDup_map_inj (A B : Type) (f : A -> B) (l : list A) (a b : A) :
  NoDup (map f l) -> In a l -> In b l -> f a = f b -> a = b.
Proof.
  induction l as [|x l IH]; simpl; [contradiction|].
  intros Hnd Ha Hb E. apply NoDup_cons_iff in Hnd as [Hn Hnd].
  destruct Ha as [-> | Ha]; destruct Hb as [-> | Hb]; auto.
  - elim Hn. rewrite E. now apply in_map.
  - elim Hn. rewrite <- E. now apply in_map.
Qed.

(** X14.  The edit form works on the first patient, in table order, whose
    label equals the label chosen in the select box, which need not be the
    patient chosen; when all labels differ it is the patient chosen. *)
Theorem selection_takes_first_label (i : inputs) (d : db) (p : Patient.t) (c : str) :
  nth_error (patients d) (in_patient i) = Some p ->
  Sql.label p = Some c ->
  exists p0,
    find (fun r => Sql.opt_eqb (Sql.label r) (Some c)) (patients d) = Some p0 /\
    chosen_id i d = inr (Patient.id p0) /\
    (NoDup (map Sql.label (patients d)) -> p0 = p).
Proof.
  intros Hn Hl.
  destruct (find (fun r => Sql.opt_eqb (Sql.label r) (Some c)) (patients d))
    as [p0|] eqn:Ef.
  - exists p0. split; [reflexivity|]. split.
    + unfold chosen_id. rewrite (chosen_label i d p Hn), Hl. unfold id_of_choice.
      unfold label_rows at 1. rewrite find_map. simpl. now rewrite Ef.
    + intro Hnd. apply find_some in Ef as [Hin0 E0]. apply opt_eqb_eq in E0.
      apply (NoDup_map_inj _ _ Sql.label (patients d)); try assumption.
      * now apply nth_error_In in Hn.
      * congruence.
  - apply nth_error_In in Hn. apply (find_none _ _ Ef) in Hn.
    rewrite Hl in Hn. simpl in Hn. now rewrite eqb_refl in Hn.
Qed.

Lemma selection_takes_first_label_witness :
  exists p0,
    find (fun r => Sql.opt_eqb (Sql.label r) (Some (u "Bob Ray (777)")))
         (patients Sample.hospital) = Some p0 /\
    chosen_id (Cases.open_form 1) Sample.hospital = inr (Patient.id p0) /\
    (NoDup (map Sql.label (patients Sample.hospital)) -> p0 = Sample.bob).
Proof.
  apply (selection_takes_first_label (Cases.open_form 1) Sample.hospital
                                     Sample.bob (u "Bob Ray (777)"));
    reflexivity.
Defined.

(** ** Pages that only read *)

(** X15.  The dashboard shows the number of rows of the patients, doctors
    and staff tables, read by three COUNT queries in that order, and leaves
    the session and the store as they were. *)
Theorem dashboard_shows_counts (i : inputs) (w : world) :
  logged_in w = Some true -> in_logout i = false ->
  radio main_modules (in_page i) = u "Dashboard" ->
  run i w =
  (Ret tt,
   mkWorld (Some true) (store w) (open_conns w) (clock w)
     [Title (u "MedCare Hospital " ++ [8594%N] ++ u " " ++ u "Dashboard");
      Sql (SelectCount TPatients); Sql (SelectCount TDoctors); Sql (SelectCount TStaff);
      Metric (u "Patients") (Z.of_nat (List.length (patients (store w))));
      Metric (u "Doctors") (Z.of_nat (List.length (doctors (store w))));
      Metric (u "Staff") (Z.of_nat (List.length (staff (store w))))]).
Proof.
  intros Hl Hlo Hp. unfold run. rewrite app_logged_in by assumption.
  rewrite Hp. unfold main_area.
  change (dispatch (u "Dashboard")) with BDashboard. cbv iota.
  destruct w as [li d n now o]. simpl in Hl. subst li.
  unfold bind at 1. unfold emit at 1, clear_out.
  cbn [logged_in store open_conns clock out app].
  unfold dashboard.
  assert (E1 : forall w0, Sql.exec (SelectCount TPatients) (clock w0) (store w0)
                 = inr (Some (FCount (Z.of_nat (List.length (patients (store w0))))), store w0))
    by reflexivity.
  assert (E2 : forall w0, Sql.exec (SelectCount TDoctors) (clock w0) (store w0)
                 = inr (Some (FCount (Z.of_nat (List.length (doctors (store w0))))), store w0))
    by reflexivity.
  assert (E3 : forall w0, Sql.exec (SelectCount TStaff) (clock w0) (store w0)
                 = inr (Some (FCount (Z.of_nat (List.length (staff (store w0))))), store w0))
    by reflexivity.
  rewrite (@bind_returns _ _ _ _ _ _ _ (run_query_fetched _ false _ _ _ (E1 _))).
  unfold bind at 1. cbn [count_of ret].
  rewrite (@bind_returns _ _ _ _ _ _ _ (run_query_fetched _ false _ _ _ (E2 _))).
  unfold bind at 1. cbn [count_of ret].
  rewrite (@bind_returns _ _ _ _ _ _ _ (run_query_fetched _ false _ _ _ (E3 _))).
  unfold bind at 1. cbn [count_of ret].
  reflexivity.
Qed.

Lemma dashboard_shows_counts_witness :
  In (Metric (u "Patients") 2)
     (out (snd (run (Sample.select_page 0) (Sample.logged Sample.hospital)))).
Proof.
  rewrite (dashboard_shows_counts (Sample.select_page 0)
                                  (Sample.logged Sample.hospital));
    [ | reflexivity | reflexivity | reflexivity ].
  simpl. do 4 right. left. reflexivity.
Defined.




(** ** Ids are not handed out twice *)

Lemma max_id_counted (d : db) :
  ids_counted d -> (Sql.max_id (patients d) <= Z.max 0 (patients_seq d))%Z.
Proof.
  unfold ids_counted. induction (patients d) as [|r rows IH]; simpl; intro H; [lia|].
  assert (H1 : (Patient.id r <= patients_seq d)%Z) by (apply H; now left).
  assert (H2 : (Sql.max_id rows <= Z.max 0 (patients_seq d))%Z)
    by (apply IH; intros x Hx; apply H; now right).
  lia.
Qed.

Lemma exec_counted (q : stmt) (now : str) (d d' : db) (fr : option frame) :
  Sql.exec q now d = inr (fr, d') -> ids_counted d ->
  ids_counted d' /\ (patients_seq d <= patients_seq d')%Z /\
  forall pid, In pid (map Patient.id (patients d')) ->
              ~ In pid (map Patient.id (patients d)) ->
              (patients_seq d < pid)%Z.
Proof.
  intros Ex Hc.
  assert (Hsame : ids_counted d /\ (patients_seq d <= patients_seq d)%Z /\
                  forall pid, In pid (map Patient.id (patients d)) ->
                              ~ In pid (map Patient.id (patients d)) ->
                              (patients_seq d < pid)%Z)
    by (repeat split; [exact Hc | lia | intros r H1 H2; contradiction]).
  destruct q as [[]| | | | | | | |[]]; simpl in Ex;
    try (injection Ex as _ <-; exact Hsame); try discriminate.
  - destruct (Sql.phone_taken _ _ _); [discriminate|]. injection Ex as _ <-.
    pose proof (max_id_counted d Hc) as Hm. unfold Sql.next_id. simpl.
    repeat split.
    + intros r Hr. simpl in Hr. apply in_app_or in Hr as [Hr | [<- | []]]; simpl.
      * specialize (Hc r Hr). lia.
      * lia.
    + lia.
    + intros pid Hr Hn. rewrite map_app in Hr.
      apply in_app_or in Hr as [Hr | [<- | []]]; [contradiction|]. simpl. lia.
  - destruct (_ && _); [discriminate|]. injection Ex as _ <-. simpl.
    assert (Hids : map Patient.id (map (Sql.apply_update fn ln ph g blood pid) (patients d))
                   = map Patient.id (patients d)).
    { rewrite map_map. apply map_ext. intro r. apply id_apply_update. }
    repeat split.
    + intros r Hr. simpl in Hr. apply in_map_iff in Hr as (x & <- & Hx).
      rewrite id_apply_update. now apply Hc.
    + lia.
    + intros pid' Hr Hn. rewrite Hids in Hr. contradiction.
  - injection Ex as _ <-. simpl. repeat split.
    + intros r Hr. simpl in Hr. apply filter_In in Hr as [Hr _]. now apply Hc.
    + lia.
    + intros pid' Hr Hn. elim Hn.
      apply in_map_iff in Hr as (x & <- & Hx). apply filter_In in Hx as [Hx _].
      now apply in_map.
Qed.

(** X18.  Ids are handed out once.  If no id in the patients table exceeds
    the AUTOINCREMENT counter before a run, none does after it, the counter
    has not gone down, and every id that is in the table after the run and
    was not before is larger than the counter was: an id freed by a DELETE
    is not given to a later patient. *)
Theorem ids_are_not_reused (i : inputs) (w : world) :
  ids_counted (store w) ->
  ids_counted (store (snd (run i w))) /\
  (patients_seq (store w) <= patients_seq (store (snd (run i w))))%Z /\
  forall pid, In pid (map Patient.id (patients (store (snd (run i w))))) ->
              ~ In pid (map Patient.id (patients (store w))) ->
              (patients_seq (store w) < pid)%Z.
Proof.
  intro Hc.
  assert (Hsame : forall d', d' = store w ->
            ids_counted d' /\ (patients_seq (store w) <= patients_seq d')%Z /\
            forall pid, In pid (map Patient.id (patients d')) ->
                        ~ In pid (map Patient.id (patients (store w))) ->
                        (patients_seq (store w) < pid)%Z)
    by (intros d' ->; repeat split; [exact Hc | lia | intros r H1 H2; contradiction]).
  destruct (run_effect i w) as [(H1 & _) | (_ & pre & q & _ & _ & _ & Ha)].
  - now apply Hsame.
  - unfold applied in Ha.
    destruct (Sql.exec q (clock w) (store w)) as [e | [fr d1]] eqn:Ex.
    + now apply Hsame.
    + subst d1. exact (exec_counted q (clock w) (store w) _ fr Ex Hc).
Qed.

Lemma ids_are_not_reused_witness :
  ids_counted
    (store (snd (run (Sample.press_create (u "Eve") (u "Fox") (u "888") 2 1)
                     (Sample.logged Sample.hospital)))).
Proof.
  refine (proj1 (ids_are_not_reused
                   (Sample.press_create (u "Eve") (u "Fox") (u "888") 2 1)
                   (Sample.logged Sample.hospital) _)).
  intros r Hr. simpl in Hr. destruct Hr as [<- | [<- | []]]; simpl; lia.
Defined.
